(** * Dealflow pipeline: normalisation, de-duplication, scoring, ranking

    A shallow embedding of [pipeline.py].  Python dictionaries are finite
    maps with string keys, exceptions are an explicit result type, and the
    floating-point arithmetic of the scorer is carried out on exact
    rationals ([Q]).  What the interpreter or a library supplies (the
    haversine distance built from [math.sin]/[math.asin], the calendar, the
    built-in [hash], [repr]) is a variable of the section that holds the
    pipeline's functions.  A character of a string is a code point
    below 256 (the Latin-1 range of Unicode, not a byte of an encoding):
    white space, case folding and the character classes of the regular
    expressions are Python's on that range; text with other code points
    is not represented. *)

From Stdlib Require Import QArith Qminmax Ascii String List Permutation Sorted.
From stdpp Require Import base option list gmap strings pretty.

Local Open Scope string_scope.
Local Open Scope list_scope.
Local Open Scope Z_scope.

(** ** Values and exceptions *)

(** The Python values the pipeline handles: [None], strings, numbers, and
    the flat [features] mapping the scorer attaches to a deal. *)
Inductive pyval : Type :=
  | VNone
  | VStr (s : string)
  | VNum (q : Q)
  | VFeat (f : gmap string Q).

(** A Python [dict] with string keys (a deal, a raw hit, a source
    descriptor). *)
Abbreviation dict := (gmap string pyval).

Inductive exn : Type :=
  | KeyError (k : string)
  | TypeError
  | ValueError
  | AttributeError
  | ZeroDivisionError.

Inductive res (A : Type) : Type :=
  | Ok (a : A)
  | Raise (e : exn).
Arguments Ok {A} a.
Arguments Raise {A} e.

Global Instance res_ret : MRet res := fun A a => Ok a.
Global Instance res_bind : MBind res := fun A B f m =>
  match m with
  | Ok a => f a
  | Raise e => Raise e
  end.

(** [try: ... except Exception: ...] *)
Definition try_except {A} (m : res A) (handler : A) : A :=
  match m with
  | Ok a => a
  | Raise _ => handler
  end.

(** [d[k]] *)
Definition getitem {V} (d : gmap string V) (k : string) : res V :=
  match d !! k with
  | Some v => Ok v
  | None => Raise (KeyError k)
  end.

(** [d.get(k)] and [d.get(k, dflt)] *)
Definition get (d : dict) (k : string) : pyval := default VNone (d !! k).
Definition get_or (d : dict) (k : string) (dflt : pyval) : pyval :=
  default dflt (d !! k).

(** Truth value of a Python object. *)
Definition truthy (v : pyval) : bool :=
  match v with
  | VNone => false
  | VStr s => negb (String.eqb s "")
  | VNum q => negb (Qeq_bool q 0)
  | VFeat f => negb (bool_decide (f = ∅))
  end.

(** [a or b] *)
Definition py_or (a b : pyval) : pyval := if truthy a then a else b.

(** A value used as a number by an arithmetic operator or a comparison
    with a number. *)
Definition as_num (v : pyval) : res Q :=
  match v with
  | VNum q => Ok q
  | _ => Raise TypeError
  end.

(** ** Strings *)

Definition is_digit (c : ascii) : bool :=
  let n := N_of_ascii c in (48 <=? n)%N && (n <=? 57)%N.

(** [str.isspace], which is also what [\s] matches in a [str] pattern:
    tab to carriage return, the four separators, the blank, and in the
    upper half NEL (U+0085) and the no-break space (U+00A0). *)
Definition is_space (c : ascii) : bool :=
  let n := N_of_ascii c in
  ((9 <=? n)%N && (n <=? 13)%N) || ((28 <=? n)%N && (n <=? 32)%N)
  || (n =? 133)%N || (n =? 160)%N.

(** [c.lower()]: [A]-[Z], and the capital letters U+00C0 to U+00DE, among
    which the multiplication sign U+00D7 is no letter. *)
Definition lower_char (c : ascii) : ascii :=
  let n := N_of_ascii c in
  if (65 <=? n)%N && (n <=? 90)%N then ascii_of_N (n + 32)
  else if (192 <=? n)%N && (n <=? 222)%N && negb (n =? 215)%N
       then ascii_of_N (n + 32)
  else c.

(** [s.lower()] *)
Fixpoint lower (s : string) : string :=
  match s with
  | EmptyString => EmptyString
  | String c s' => String (lower_char c) (lower s')
  end.

(** [s.replace(c, "")] for a one-character [c]. *)
Fixpoint remove_char (c : ascii) (s : string) : string :=
  match s with
  | EmptyString => EmptyString
  | String a s' =>
      if Ascii.eqb a c then remove_char c s' else String a (remove_char c s')
  end.

Fixpoint lstrip (s : string) : string :=
  match s with
  | EmptyString => EmptyString
  | String c s' => if is_space c then lstrip s' else s
  end.

Fixpoint rstrip (s : string) : string :=
  match s with
  | EmptyString => EmptyString
  | String c s' =>
      match rstrip s' with
      | EmptyString => if is_space c then EmptyString else String c EmptyString
      | r => String c r
      end
  end.

(** [s.strip()] *)
Definition strip (s : string) : string := rstrip (lstrip s).

(** The longest prefix whose characters satisfy [p], and the rest: a greedy
    [[...]*]. *)
Fixpoint span (p : ascii -> bool) (s : string) : string * string :=
  match s with
  | EmptyString => (EmptyString, EmptyString)
  | String c s' =>
      if p c then let '(a, b) := span p s' in (String c a, b)
      else (EmptyString, s)
  end.

Fixpoint all_chars (p : ascii -> bool) (s : string) : bool :=
  match s with
  | EmptyString => true
  | String c s' => p c && all_chars p s'
  end.

(** Value of a string of decimal digits, most significant first. *)
Fixpoint digits_value (acc : Z) (s : string) : Z :=
  match s with
  | EmptyString => acc
  | String c s' => digits_value (10 * acc + (Z.of_N (N_of_ascii c) - 48)) s'
  end.

(** [float(s)] for [s] made of digits and dots, the only strings the price
    parser passes to it: digits with at most one dot and at least one
    digit; anything else is a [ValueError].  The value is the decimal
    number itself, which the source rounds to the nearest double. *)
Definition py_float (s : string) : res Q :=
  let '(ip, rest) := span is_digit s in
  match rest with
  | EmptyString =>
      if String.eqb ip "" then Raise ValueError
      else Ok (inject_Z (digits_value 0 ip))
  | String c fp =>
      if Ascii.eqb c "." && all_chars is_digit fp
         && negb (String.eqb ip "" && String.eqb fp "")
      then Ok (Qmake (digits_value 0 (ip +:+ fp))
                     (Z.to_pos (10 ^ Z.of_nat (String.length fp))))
      else Raise ValueError
  end.

(** ** The price parser *)

(** [[0-9.]] *)
Definition is_amount_char (c : ascii) : bool := is_digit c || Ascii.eqb c ".".

(** [re.search(r'([0-9.]+)(m|k)?', s)]: the leftmost position where a
    character of [[0-9.]] stands, the longest run from there as group 1,
    and a following [m] or [k] as group 2.  Nothing follows the two groups
    in the pattern, so the greedy choice is never undone. *)
Fixpoint search_amount (s : string) : option (string * option string) :=
  match s with
  | EmptyString => None
  | String c s' =>
      if is_amount_char c then
        let '(g1, rest) := span is_amount_char s in
        Some (g1,
              match rest with
              | String u _ =>
                  if Ascii.eqb u "m" || Ascii.eqb u "k"
                  then Some (String u EmptyString) else None
              | EmptyString => None
              end)
      else search_amount s'
  end.

(** [{"m":1_000_000,"k":1_000}] *)
Definition unit_multipliers : gmap string Q :=
  <["k" := inject_Z 1000]> (<["m" := inject_Z 1000000]> ∅).

Definition norm_price (s : string) : res pyval :=
  if String.eqb s "" then Ok VNone else
  let s := remove_char " " (remove_char "," s) in
  match search_amount (lower s) with
  | None => Ok VNone
  | Some (g1, g2) =>
      x ← py_float g1;
      let mul := default 1%Q (unit_multipliers !! default "" g2) in
      Ok (VNum (x * mul))
  end.


(** ** The record normaliser *)

(** [[0-9,\.]] *)
Definition is_price_char (c : ascii) : bool :=
  is_digit c || Ascii.eqb c "," || Ascii.eqb c ".".

(** A pattern letter under [re.I]: below 256 only the letter itself and
    its capital match. *)
Definition eq_ci (l c : ascii) : bool := Ascii.eqb (lower_char c) l.

(** A greedy one-character [?]. *)
Definition skip_opt (p : ascii -> bool) (s : string) : string :=
  match s with
  | String c s' => if p c then s' else s
  | EmptyString => s
  end.

(** [AUD?\$?\s?([0-9,\.]+[mk]?)] with [re.I], anchored at the start of [s];
    the result is group 1.  Each optional element is disjoint from
    everything that may follow it ([D], [$] and white space are not in
    [[0-9,.]]), so undoing a greedy choice can never turn a failure into a
    match and the matcher does not backtrack. *)
Definition match_price_at (s : string) : option string :=
  match s with
  | String a (String u r) =>
      if eq_ci "a" a && eq_ci "u" u then
        let r := skip_opt (eq_ci "d") r in
        let r := skip_opt (Ascii.eqb "$") r in
        let r := skip_opt is_space r in
        let '(g, rest) := span is_price_char r in
        if String.eqb g "" then None
        else Some (g +:+ match rest with
                         | String c _ =>
                             if eq_ci "m" c || eq_ci "k" c
                             then String c EmptyString else EmptyString
                         | EmptyString => EmptyString
                         end)
      else None
  | _ => None
  end.

(** [re.search] of that pattern: the leftmost position where it matches. *)
Fixpoint search_price (s : string) : option string :=
  match match_price_at s with
  | Some g => Some g
  | None =>
      match s with
      | EmptyString => None
      | String _ s' => search_price s'
      end
  end.

(** [v.strip()], [v.lower()], [a + b] on values. *)
Definition py_strip (v : pyval) : res string :=
  match v with
  | VStr s => Ok (strip s)
  | _ => Raise AttributeError
  end.

Definition py_lower (v : pyval) : res string :=
  match v with
  | VStr s => Ok (lower s)
  | _ => Raise AttributeError
  end.

Definition py_add_str (a : pyval) (b : string) : res string :=
  match a with
  | VStr s => Ok (s +:+ b)
  | _ => Raise TypeError
  end.

(** [v is None] *)
Definition is_none (v : pyval) : bool :=
  match v with
  | VNone => true
  | _ => false
  end.

(** Values that can be a dictionary key or a set member. *)
Definition hashable (v : pyval) : bool :=
  match v with
  | VFeat _ => false
  | _ => true
  end.

(** [a == b] on hashable values. *)
Definition key_eqb (a b : pyval) : bool :=
  match a, b with
  | VNone, VNone => true
  | VStr s, VStr t => String.eqb s t
  | VNum p, VNum q => Qeq_bool p q
  | _, _ => false
  end.

Section Normalizer.

(** The interpreter's built-in [hash], which for strings is keyed by a
    secret drawn when the process starts; [py_repr] is [str()] of a value
    that is not a string; [utc_today_iso] is
    [datetime.now(timezone.utc).date().isoformat()]. *)
Variable py_hash : pyval -> Z.
Variable py_repr : pyval -> string.
Variable utc_today_iso : string.

Definition hash (v : pyval) : res Z :=
  if hashable v then Ok (py_hash v) else Raise TypeError.

(** [str(v)], as an f-string field formats it. *)
Definition py_str (v : pyval) : string :=
  match v with
  | VStr s => s
  | _ => py_repr v
  end.

(** Lines 63-67: the crude price parse from snippet and title. *)
Definition parse_price (text : string) : res pyval :=
  match search_price text with
  | Some g => norm_price g
  | None => Ok VNone
  end.

Definition normalize_hit (hit source : dict) : res dict :=
  let link := get hit "link" in
  title ← py_strip (get_or hit "title" (VStr ""));
  let snippet := get_or hit "snippet" (VStr "") in
  text ← py_add_str snippet (" " +:+ title);
  price ← parse_price text;
  name ← getitem source "name";
  h ← hash link;
  source_name ← getitem source "name";
  Ok (list_to_map
        [ ("id", VStr (py_str name +:+ "-" +:+ pretty (Z.abs h mod 10000000)));
          ("title", VStr title);
          ("category", get_or source "category" (VStr "Unknown"));
          ("source", source_name);
          ("url", link);
          ("asking_price_aud", price);
          ("revenue_aud", VNone);
          ("ebitda_aud", VNone);
          ("location", get_or source "region" (VStr "AU"));
          ("lat", VNone);
          ("lon", VNone);
          ("ownership", get_or source "ownership" (VStr "Unknown"));
          ("days_on_market", VNum 0);
          ("date_listed", VStr utc_today_iso);
          ("notes", snippet);
          ("contact", VNone) ]).

End Normalizer.

(** ** De-duplication by url (lines 96-100 of [run]) *)

(** The dictionary [uniq], in insertion order.  Assigning to a key that is
    present replaces its value where the key stands; a new key goes to the
    end. *)
Fixpoint od_set (k : pyval) (v : dict) (m : list (pyval * dict))
  : list (pyval * dict) :=
  match m with
  | [] => [(k, v)]
  | (k', v') :: m' =>
      if key_eqb k' k then (k', v) :: m' else (k', v') :: od_set k v m'
  end.

(** [for d in deals: uniq[d["url"]] = d] *)
Fixpoint dedupe_loop (deals : list dict) (uniq : list (pyval * dict))
  : res (list (pyval * dict)) :=
  match deals with
  | [] => Ok uniq
  | d :: rest =>
      u ← getitem d "url";
      if hashable u then dedupe_loop rest (od_set u d uniq)
      else Raise TypeError
  end.

(** [list(uniq.values())] *)
Definition dedupe (deals : list dict) : res (list dict) :=
  uniq ← dedupe_loop deals [];
  Ok (map snd uniq).


(** ** The scorer *)

Definition Qlt_bool (a b : Q) : bool := negb (Qle_bool b a).

(** [round(x, 3)] on an exact rational: the nearest multiple of 1/1000,
    a tie going to the even one. *)
Definition round_half_even (x : Q) : Z :=
  let n := Qnum x in
  let d := Zpos (Qden x) in
  let f := n / d in
  let r := n mod d in
  match 2 * r ?= d with
  | Lt => f
  | Gt => f + 1
  | Eq => if Z.even f then f else f + 1
  end.

Definition round3 (x : Q) : Q := Qmake (round_half_even (x * inject_Z 1000)) 1000.

(** [scoring_config.json] as [load_scoring] returns it; [None] stands for
    a key that the file does not have. *)
Record config : Type := {
  cfg_weights : option (gmap string Q);
  cfg_target_categories : option (list string);
  cfg_hq_lat : option Q;
  cfg_hq_lon : option Q;
  cfg_max_distance_km_for_full_points : option Q
}.

(** [cfg[k]] *)
Definition cfg_getitem {A} (field : option A) (k : string) : res A :=
  match field with
  | Some a => Ok a
  | None => Raise (KeyError k)
  end.

(** [x["score"]], the sort key, on a deal the scorer has just built. *)
Definition score_key (d : dict) : Q :=
  match d !! "score" with
  | Some (VNum q) => q
  | _ => 0%Q
  end.

(** [list.sort(key=..., reverse=True)]: descending by key; the sort is
    stable, also under [reverse], so deals with equal keys keep their
    order.  An element entering from the left goes in front of the first
    element whose key is not greater than its own. *)
Fixpoint insert_desc (x : dict) (l : list dict) : list dict :=
  match l with
  | [] => [x]
  | y :: l' =>
      if Qlt_bool (score_key x) (score_key y) then y :: insert_desc x l'
      else x :: l
  end.

Fixpoint sort_desc (l : list dict) : list dict :=
  match l with
  | [] => []
  | x :: l' => insert_desc x (sort_desc l')
  end.

Section Scorer.

(** [km] is the haversine distance of the source, which is built from
    [math.sin], [math.cos], [math.asin] and [math.sqrt]; [today] is the
    day number of [datetime.now().date()]; [fromisoformat] gives the day
    number of [datetime.fromisoformat(s).date()], or [None] where it
    raises. *)
Variable km : Q -> Q -> Q -> Q -> res Q.
Variable today : Z.
Variable fromisoformat : string -> option Z.

(** Lines 130-133: the age of the listing in days. *)
Definition days_listed (d : dict) : Z :=
  try_except
    (v ← getitem d "date_listed";
     match v with
     | VStr s =>
         match fromisoformat s with
         | Some listed => Ok (today - listed)
         | None => Raise ValueError
         end
     | _ => Raise TypeError
     end)
    30.

(** Lines 119-124: the raw ratios.  The condition of each conditional
    expression is evaluated before its branch. *)
Definition raw_margin (d : dict) : res Q :=
  let rev := py_or (get d "revenue_aud") (VNum 0) in
  let ebitda := py_or (get d "ebitda_aud") (VNum 0) in
  r ← as_num rev;
  if Qlt_bool 0 r then e ← as_num ebitda; Ok (e / r)%Q else Ok 0%Q.

Definition raw_pte (d : dict) : res Q :=
  let ebitda := py_or (get d "ebitda_aud") (VNum 0) in
  let price := py_or (get d "asking_price_aud") (VNum 0) in
  e ← as_num ebitda;
  if Qlt_bool 0 e then p ← as_num price; Ok (p / e)%Q
  else Ok (inject_Z 99).

(** Lines 127-134. *)
Definition f_margin (margin : Q) : Q := Qmin (Qmax (margin / (3 # 10)) 0) 1.
Definition f_pte (pte : Q) : Q := 1 - Qmin (pte / inject_Z 5) 1.
Definition f_recent (days : Z) : Q :=
  Qmax 0 (1 - inject_Z days / inject_Z 30).

(** Line 137. *)
Definition f_freehold (d : dict) : res Q :=
  o ← py_lower (get_or d "ownership" (VStr ""));
  Ok (if String.eqb o "freehold" then 1%Q else (3 # 10)).

(** Line 140: [d.get("category") in target], [target] a set of
    strings. *)
Definition f_cat (d : dict) (target : list string) : res Q :=
  match get d "category" with
  | VStr s => Ok (if bool_decide (s ∈ target) then 1%Q else (1 # 2))
  | VFeat _ => Raise TypeError
  | _ => Ok (1 # 2)
  end.

(** Lines 143-147. *)
Definition f_dist (hq_lat hq_lon maxd : Q) (d : dict) : res Q :=
  if negb (is_none (get d "lat")) && negb (is_none (get d "lon")) then
    lat ← getitem d "lat" ≫= as_num;
    lon ← getitem d "lon" ≫= as_num;
    dist ← km hq_lat hq_lon lat lon;
    if Qeq_bool maxd 0 then Raise ZeroDivisionError
    else Ok (Qmax 0 (1 - dist / maxd))
  else Ok (1 # 2).

(** Lines 149-156: the weights are looked up from left to right. *)
Definition weighted (w : gmap string Q) (fm fp fr ff fc fd : Q) : res Q :=
  w_margin ← getitem w "ebitda_margin";
  w_pte ← getitem w "price_to_ebitda";
  w_recent ← getitem w "recency";
  w_freehold ← getitem w "ownership_freehold";
  w_cat ← getitem w "category_match";
  w_dist ← getitem w "proximity_se_qld";
  Ok (w_margin * fm + w_pte * fp + w_recent * fr
      + w_freehold * ff + w_cat * fc + w_dist * fd)%Q.

(** Lines 159-166. *)
Definition features (fm fp fr ff fc fd : Q) : gmap string Q :=
  list_to_map
    [ ("margin", round3 fm);
      ("price_to_ebitda", round3 fp);
      ("recency", round3 fr);
      ("freehold", ff);
      ("category", fc);
      ("proximity", round3 fd) ].

(** The body of the loop of [score_deals] (lines 119-167). *)
Definition score_deal (w : gmap string Q) (target : list string)
    (hq_lat hq_lon maxd : Q) (d : dict) : res dict :=
  margin ← raw_margin d;
  pte ← raw_pte d;
  let fm := f_margin margin in
  let fp := f_pte pte in
  let fr := f_recent (days_listed d) in
  ff ← f_freehold d;
  fc ← f_cat d target;
  fd ← f_dist hq_lat hq_lon maxd d;
  score ← weighted w fm fp fr ff fc fd;
  Ok (<["features" := VFeat (features fm fp fr ff fc fd)]>
        (<["score" := VNum (round3 score)]> d)).

(** [for d in deals: ...; out.append(d2)] *)
Fixpoint score_loop (w : gmap string Q) (target : list string)
    (hq_lat hq_lon maxd : Q) (deals : list dict) : res (list dict) :=
  match deals with
  | [] => Ok []
  | d :: rest =>
      d2 ← score_deal w target hq_lat hq_lon maxd d;
      out ← score_loop w target hq_lat hq_lon maxd rest;
      Ok (d2 :: out)
  end.

Definition score_deals (deals : list dict) (cfg : config) : res (list dict) :=
  w ← cfg_getitem (cfg_weights cfg) "weights";
  target ← cfg_getitem (cfg_target_categories cfg) "target_categories";
  hq_lat ← cfg_getitem (cfg_hq_lat cfg) "hq_lat";
  hq_lon ← cfg_getitem (cfg_hq_lon cfg) "hq_lon";
  maxd ← cfg_getitem (cfg_max_distance_km_for_full_points cfg)
           "max_distance_km_for_full_points";
  out ← score_loop w target hq_lat hq_lon maxd deals;
  Ok (sort_desc out).

End Scorer.



(** * Specification vocabulary *)

(** ** De-duplication *)

(** The deal carries the url [u]. *)
Definition has_url (u : pyval) (d : dict) : bool :=
  match d !! "url" with
  | Some v => key_eqb v u
  | None => false
  end.

(** The deal has a [url] entry that can serve as a dictionary key, as every
    deal built by [normalize_hit] from a string or absent link does. *)
Definition url_ok (d : dict) : Prop :=
  ∃ v, d !! "url" = Some v ∧ hashable v = true.

(** Under every url that occurs in [deals], [out] holds one deal, and it is
    the last deal of [deals] with that url. *)
Definition last_wins (deals out : list dict) : Prop :=
  ∀ u, existsb (has_url u) deals = true →
    ∃ pre d post l1 l2,
      deals = pre ++ d :: post
      ∧ has_url u d = true
      ∧ forallb (λ x, negb (has_url u x)) post = true
      ∧ out = l1 ++ d :: l2
      ∧ forallb (λ x, negb (has_url u x)) (l1 ++ l2) = true.

(** [k in uniq] and [uniq.get(k)] on the ordered dictionary. *)
Definition od_mem (k : pyval) (m : list (pyval * dict)) : bool :=
  existsb (λ p, key_eqb p.1 k) m.

Definition od_get (k : pyval) (m : list (pyval * dict)) : option dict :=
  snd <$> List.find (λ p, key_eqb p.1 k) m.

(** No key occurs twice. *)
Fixpoint od_nodup (m : list (pyval * dict)) : Prop :=
  match m with
  | [] => True
  | p :: m' => od_mem p.1 m' = false ∧ od_nodup m'
  end.

(** What the loop of [dedupe] maintains: the keys are distinct and hashable,
    and each value is a deal whose url is its key. *)
Definition od_inv (m : list (pyval * dict)) : Prop :=
  od_nodup m ∧ Forall (λ p, has_url p.1 p.2 = true ∧ hashable p.1 = true) m.

(** ** Scoring and ranking *)

(** [d2] is the deal [d] with a [score] and a [features] entry set. *)
Definition augmented (d d2 : dict) : Prop :=
  ∃ s f, d2 = <["features" := VFeat f]> (<["score" := VNum s]> d).

(** [a] may stand before [b] in a ranking by descending score. *)
Definition by_score_desc (a b : dict) : Prop := (score_key b <= score_key a)%Q.

Definition same_score (s : Q) (d : dict) : bool := Qeq_bool (score_key d) s.

(** The entry [k] of the [features] mapping of a scored deal. *)
Definition feature (d : dict) (k : string) : option Q :=
  match d !! "features" with
  | Some (VFeat f) => f !! k
  | _ => None
  end.

(** The six weights the scorer reads. *)
Definition weight_keys : list string :=
  [ "ebitda_margin"; "price_to_ebitda"; "recency"; "ownership_freehold";
    "category_match"; "proximity_se_qld" ].

(** A top-level field of the configuration is absent. *)
Definition missing_field (cfg : config) : Prop :=
  cfg_weights cfg = None ∨ cfg_target_categories cfg = None
  ∨ cfg_hq_lat cfg = None ∨ cfg_hq_lon cfg = None
  ∨ cfg_max_distance_km_for_full_points cfg = None.

(** The weights are there, but one of the six is absent. *)
Definition missing_weight (cfg : config) : Prop :=
  ∃ w k, cfg_weights cfg = Some w ∧ k ∈ weight_keys ∧ w !! k = None.


(** [d2] is what the loop of [score_deals] makes of the deal [d] under the
    configuration [cfg]. *)
Definition scored_by (km : Q → Q → Q → Q → res Q) (today : Z)
    (fromisoformat : string → option Z) (cfg : config) (d d2 : dict) : Prop :=
  ∃ w target hq_lat hq_lon maxd,
    cfg_weights cfg = Some w
    ∧ cfg_target_categories cfg = Some target
    ∧ cfg_hq_lat cfg = Some hq_lat
    ∧ cfg_hq_lon cfg = Some hq_lon
    ∧ cfg_max_distance_km_for_full_points cfg = Some maxd
    ∧ score_deal km today fromisoformat w target hq_lat hq_lon maxd d = Ok d2.

(** ** The price marker of the normaliser *)

(** The text starts with a match of [AUD?\$?\s?[0-9,\.]]: the letters
    [AU] in either case, then at most one [D], at most one [$], at most one
    white-space character, and a digit, comma or dot. *)
Definition price_marker_at (s : string) : Prop :=
  ∃ a u d dollar sp c rest,
    s = String a (String u (d +:+ dollar +:+ sp +:+ String c rest))
    ∧ eq_ci "a" a = true ∧ eq_ci "u" u = true
    ∧ (d = "" ∨ ∃ x, d = String x "" ∧ eq_ci "d" x = true)
    ∧ (dollar = "" ∨ dollar = "$")
    ∧ (sp = "" ∨ ∃ x, sp = String x "" ∧ is_space x = true)
    ∧ is_price_char c = true.


(** A unit letter of the price pattern: [m] or [k], in either case. *)
Definition is_unit_char (c : ascii) : bool := eq_ci "m" c || eq_ci "k" c.

(** [g] is group 1 of the match of [AUD?\$?\s?([0-9,\.]+[mk]?)] at the
    start of [s]: after the letters [AU] and at most one [D], one [$] and
    one white-space character comes the longest run of digits, commas and
    dots, which is not empty, and [g] is that run with the unit letter
    that follows it, if one does. *)
Definition price_match_at (s g : string) : Prop :=
  ∃ a u d dollar sp digits unit rest,
    s = String a (String u
          (d +:+ dollar +:+ sp +:+ digits +:+ unit +:+ rest))
    ∧ eq_ci "a" a = true ∧ eq_ci "u" u = true
    ∧ (d = "" ∨ ∃ x, d = String x "" ∧ eq_ci "d" x = true)
    ∧ (dollar = "" ∨ dollar = "$")
    ∧ (sp = "" ∨ ∃ x, sp = String x "" ∧ is_space x = true)
    ∧ digits ≠ "" ∧ all_chars is_price_char digits = true
    ∧ ((∃ c, unit = String c "" ∧ is_unit_char c = true)
       ∨ (unit = ""
          ∧ match rest with
            | String c _ => is_price_char c = false ∧ is_unit_char c = false
            | EmptyString => True
            end))
    ∧ g = digits +:+ unit.


(** ** Sample inputs *)

(** The haversine distance of the source, in kilometres and to the metre,
    from the headquarters of the sample configuration (27.5 S, 153 E) to
    the points that the examples use: the headquarters themselves, the
    point half a degree to the north, and Sydney (33.87 S, 151.21 E).
    Other pairs of points are not tabulated. *)
Definition sample_km (a b c d : Q) : res Q :=
  if Qeq_bool a c && Qeq_bool b d then Ok 0%Q
  else if Qeq_bool a (- (55 # 2)) && Qeq_bool b (153 # 1) then
    if Qeq_bool c (- (27 # 1)) && Qeq_bool d (153 # 1)
    then Ok (55597 # 1000)%Q
    else if Qeq_bool c (- (3387 # 100)) && Qeq_bool d (15121 # 100)
    then Ok (728658 # 1000)%Q
    else Raise ValueError
  else Raise ValueError.

(** The calendar on the two days the examples use, as day numbers of the
    proleptic Gregorian calendar. *)
Definition sample_fromisoformat (s : string) : option Z :=
  if String.eqb s "2026-01-01" then Some 739617
  else if String.eqb s "2026-01-02" then Some 739618
  else None.

Definition sample_weights : gmap string Q :=
  list_to_map
    [ ("ebitda_margin", 1 # 4); ("price_to_ebitda", 1 # 4); ("recency", 1 # 10);
      ("ownership_freehold", 1 # 10); ("category_match", 1 # 5);
      ("proximity_se_qld", 1 # 10) ].

Definition sample_config : config :=
  {| cfg_weights := Some sample_weights;
     cfg_target_categories := Some ["Cafe"];
     cfg_hq_lat := Some (- (55 # 2))%Q;
     cfg_hq_lon := Some (153 # 1)%Q;
     cfg_max_distance_km_for_full_points := Some (200 # 1)%Q |}.

(** The configuration without its [recency] weight. *)
Definition config_without_recency : config :=
  {| cfg_weights := Some (delete "recency" sample_weights);
     cfg_target_categories := Some ["Cafe"];
     cfg_hq_lat := Some (- (55 # 2))%Q;
     cfg_hq_lon := Some (153 # 1)%Q;
     cfg_max_distance_km_for_full_points := Some (200 # 1)%Q |}.

(** The configuration without [hq_lat]. *)
Definition config_without_hq_lat : config :=
  {| cfg_weights := Some sample_weights;
     cfg_target_categories := Some ["Cafe"];
     cfg_hq_lat := None;
     cfg_hq_lon := Some (153 # 1)%Q;
     cfg_max_distance_km_for_full_points := Some (200 # 1)%Q |}.

(** A leasehold bakery listed on 2026-01-01, and a freehold cafe in a
    target category listed the day after, with earnings but no price. *)
Definition deal_bakery : dict :=
  list_to_map
    [ ("title", VStr "Bakery"); ("url", VStr "https://a.example/1");
      ("category", VStr "Bakery"); ("ownership", VStr "Leasehold");
      ("asking_price_aud", VNone); ("revenue_aud", VNone);
      ("ebitda_aud", VNone); ("lat", VNone); ("lon", VNone);
      ("date_listed", VStr "2026-01-01") ].

Definition deal_cafe : dict :=
  list_to_map
    [ ("title", VStr "Cafe"); ("url", VStr "https://a.example/2");
      ("category", VStr "Cafe"); ("ownership", VStr "Freehold");
      ("asking_price_aud", VNone); ("revenue_aud", VNum (500000 # 1));
      ("ebitda_aud", VNum (120000 # 1)); ("lat", VNone); ("lon", VNone);
      ("date_listed", VStr "2026-01-02") ].

(** A second observation of the bakery's url. *)
Definition deal_bakery_again : dict :=
  <["title" := VStr "Bakery (price reduced)"]> deal_bakery.


(** A stand-in for the interpreter's [hash].  As in CPython, the hash of a
    string depends on a secret of the process, which differs from run to
    run unless [PYTHONHASHSEED] pins it. *)
Fixpoint mix (acc : Z) (s : string) : Z :=
  match s with
  | EmptyString => acc
  | String c s' => mix (31 * acc + Z.of_N (N_of_ascii c)) s'
  end.

Definition sample_hash (secret : Z) (v : pyval) : Z :=
  match v with
  | VStr s => mix secret s
  | _ => 0
  end.

(** [str()] of the values that are not strings, for examples that format
    no number. *)
Definition sample_repr (v : pyval) : string := "None".

Definition sample_source : dict :=
  list_to_map [ ("name", VStr "bsale"); ("category", VStr "Cafe") ].

(** A hit whose marker and amount are separated by a no-break space. *)
Definition hit_nbsp : dict :=
  list_to_map
    [ ("link", VStr "https://a.example/4"); ("title", VStr "Cafe");
      ("snippet",
       VStr ("AUD" +:+ String (ascii_of_N 160) EmptyString +:+ "500k")) ].


Definition hit_bare_k : dict :=
  list_to_map
    [ ("link", VStr "https://a.example/2"); ("title", VStr "Cafe");
      ("snippet", VStr "450k") ].

Definition hit_marked : dict :=
  list_to_map
    [ ("link", VStr "https://a.example/3"); ("title", VStr "Cafe");
      ("snippet", VStr "Asking AUD$1.2M ono") ].

(** The same link under another title and snippet. *)
Definition hit_marked_again : dict :=
  list_to_map
    [ ("link", VStr "https://a.example/3"); ("title", VStr "Cafe, reduced");
      ("snippet", VStr "Now AU 950k") ].

(** The entry [k] of the normalised hit. *)
Definition field_of (r : res dict) (k : string) : res (option pyval) :=
  d ← r; Ok (d !! k).


(** The call returned. *)
Definition is_ok {A} (r : res A) : bool :=
  match r with
  | Ok _ => true
  | Raise _ => false
  end.

(** The titles of a list of deals, in order. *)
Definition titles (r : res (list dict)) : res (list (option pyval)) :=
  out ← r; Ok (map (λ d : dict, d !! "title") out).


(** ** Vocabulary for the further properties *)

(** The multiplier the price parser reads off the character that follows
    the amount. *)
Definition unit_of (tail : string) : Q :=
  match tail with
  | String u _ =>
      if Ascii.eqb (lower_char u) "m" then inject_Z 1000000
      else if Ascii.eqb (lower_char u) "k" then inject_Z 1000
      else 1%Q
  | EmptyString => 1%Q
  end.

(** The text ends here, or goes on with a character that is neither part
    of an amount nor dropped by the parser. *)
Definition ends_amount (tail : string) : bool :=
  match tail with
  | String u _ =>
      negb (is_amount_char u) && negb (Ascii.eqb u ",") && negb (Ascii.eqb u " ")
  | EmptyString => true
  end.

Definition is_dot (c : ascii) : bool := Ascii.eqb c ".".

Fixpoint count_chars (p : ascii → bool) (s : string) : nat :=
  match s with
  | EmptyString => 0%nat
  | String c s' => ((if p c then 1 else 0) + count_chars p s')%nat
  end.

(** No two deals of the list carry the same url. *)
Definition url_unique (l : list dict) : Prop :=
  ∀ u, (length (List.filter (has_url u) l) <= 1)%nat.

(** The [date_listed] of the deal cannot be read as a date: it is absent,
    not a string, or not in ISO format. *)
Definition date_unreadable (fromisoformat : string → option Z) (d : dict)
  : Prop :=
  match d !! "date_listed" with
  | Some (VStr s) => fromisoformat s = None
  | _ => True
  end.

(** Both coordinates of the deal are set. *)
Definition located (d : dict) : bool :=
  negb (is_none (get d "lat")) && negb (is_none (get d "lon")).

(** The deal is a normalised hit. *)
Definition normalised (py_hash : pyval → Z) (py_repr : pyval → string)
    (d : dict) : Prop :=
  ∃ now hit source, normalize_hit py_hash py_repr now hit source = Ok d.

(** The configuration has all six weights. *)
Definition weights_complete (w : gmap string Q) : Prop :=
  ∀ k, k ∈ weight_keys → is_Some (w !! k).

(** ** The run *)

(** An entry of [sites.yaml]: the descriptor that [normalize_hit] reads,
    and its [queries], [None] when the entry has no such key. *)
Record site : Type := {
  site_fields : dict;
  site_queries : option (list string)
}.

Section Run.

(** [search_serpapi] is the search of the source, which goes to the
    network, and [load_scoring] the configuration it reads from disk.
    [utc_date_at n] is what [datetime.now(timezone.utc).date().isoformat()]
    returns in the call of [normalize_hit] that [n] calls precede. *)
Variable search_serpapi : string → res (list dict).
Variable load_scoring : config.
Variable py_hash : pyval → Z.
Variable py_repr : pyval → string.
Variable utc_date_at : nat → string.
Variable km : Q → Q → Q → Q → res Q.
Variable today : Z.
Variable fromisoformat : string → option Z.

(** [for hit in results: deals.append(normalize_hit(hit, s))] *)
Fixpoint hits_loop (s : dict) (results : list dict) (deals : list dict)
  : res (list dict) :=
  match results with
  | [] => Ok deals
  | hit :: rest =>
      d ← normalize_hit py_hash py_repr (utc_date_at (length deals)) hit s;
      hits_loop s rest (deals ++ [d])
  end.

(** [for q in s["queries"]: results = search_serpapi(q); ...] *)
Fixpoint queries_loop (s : dict) (queries : list string) (deals : list dict)
  : res (list dict) :=
  match queries with
  | [] => Ok deals
  | q :: rest =>
      results ← search_serpapi q;
      deals ← hits_loop s results deals;
      queries_loop s rest deals
  end.

(** [for s in sites: ...] *)
Fixpoint sites_loop (sites : list site) (deals : list dict)
  : res (list dict) :=
  match sites with
  | [] => Ok deals
  | s :: rest =>
      queries ← cfg_getitem (site_queries s) "queries";
      deals ← queries_loop (site_fields s) queries deals;
      sites_loop rest deals
  end.

(** [run], from the sites that [parse_sites] returned to the list that is
    written to [deals.json] and [latest.csv]. *)
Definition run (sites : list site) : res (list dict) :=
  deals ← sites_loop sites [];
  deals ← dedupe deals;
  score_deals km today fromisoformat deals load_scoring.

End Run.

(** ** More sample inputs *)

(** The bakery with its ownership set to [None]; and with coordinates: at
    the headquarters, in Sydney, and half a degree north of the
    headquarters. *)
Definition deal_no_ownership : dict := <["ownership" := VNone]> deal_bakery.

Definition deal_at_hq : dict :=
  <["lat" := VNum (- (55 # 2))]> (<["lon" := VNum (153 # 1)]> deal_bakery).

Definition deal_sydney : dict :=
  <["lat" := VNum (- (3387 # 100))]>
    (<["lon" := VNum (15121 # 100)]> deal_bakery).

Definition deal_located : dict :=
  <["lat" := VNum (- (27 # 1))]> (<["lon" := VNum (153 # 1)]> deal_bakery).

(** The sample configuration with a full-points distance of zero. *)
Definition config_zero_distance : config :=
  {| cfg_weights := Some sample_weights;
     cfg_target_categories := Some ["Cafe"];
     cfg_hq_lat := Some (- (55 # 2))%Q;
     cfg_hq_lon := Some (153 # 1)%Q;
     cfg_max_distance_km_for_full_points := Some 0%Q |}.

(** One site with two queries, and a search that answers the first with
    two hits of one link and the second with a third hit. *)
Definition sample_sites : list site :=
  [ {| site_fields := sample_source;
       site_queries := Some ["cafe for sale"; "bakery for sale"] |} ].

Definition sample_search (q : string) : res (list dict) :=
  if String.eqb q "cafe for sale" then Ok [hit_marked; hit_marked_again]
  else Ok [hit_bare_k].

Definition sample_clock (n : nat) : string := "2026-01-01".

(** The first deal of a result, and projections of a result that the
    examples evaluate. *)
Definition first_deal (out : list dict) : dict := default ∅ (head out).

Definition count_of (r : res (list dict)) : res nat :=
  out ← r; Ok (length out).

Definition first_feature (r : res (list dict)) (k : string)
  : res (option Q) :=
  out ← r; Ok (feature (first_deal out) k).


(** * Properties *)

(** ** The exception monad *)

Lemma bind_Ok {A B} (m : res A) (f : A → res B) (b : B) :
  m ≫= f = Ok b → ∃ a, m = Ok a ∧ f a = Ok b.
Proof. destruct m as [a|e]; simpl; [eauto | discriminate]. Qed.

Lemma getitem_Ok {V} (d : gmap string V) k v :
  getitem d k = Ok v → d !! k = Some v.
Proof. unfold getitem. destruct (d !! k); congruence. Qed.

Ltac inv_bind H :=
  let a := fresh "a" in
  let Ha := fresh "Ha" in
  apply bind_Ok in H; destruct H as (a & Ha & H).

(** ** Keys *)

Lemma key_eqb_refl v : hashable v = true → key_eqb v v = true.
Proof.
  destruct v as [|s|q|f]; simpl; try done.
  - intros _. apply String.eqb_refl.
  - intros _. apply Qeq_bool_iff. reflexivity.
Qed.

Lemma key_eqb_sym a b : key_eqb a b = key_eqb b a.
Proof.
  destruct a as [|s|p|f], b as [|t|q|g]; simpl; try done.
  - apply String.eqb_sym.
  - apply eq_true_iff_eq. rewrite !Qeq_bool_iff. split; intros H; by symmetry.
Qed.

Lemma key_eqb_trans a b c :
  key_eqb a b = true → key_eqb b c = true → key_eqb a c = true.
Proof.
  destruct a as [|s|p|f], b as [|t|q|g], c as [|r|x|h]; simpl; try done.
  - rewrite !String.eqb_eq. congruence.
  - rewrite !Qeq_bool_iff. intros H1 H2. by rewrite H1.
Qed.

Lemma key_eqb_left a b c :
  key_eqb a b = true → key_eqb a c = key_eqb b c.
Proof.
  intros H. apply eq_true_iff_eq. split; intros H'.
  - apply key_eqb_trans with a; [by rewrite key_eqb_sym | done].
  - by apply key_eqb_trans with b.
Qed.

Lemma key_eqb_right a b c :
  key_eqb a b = true → key_eqb c a = key_eqb c b.
Proof.
  intros H. rewrite (key_eqb_sym c a), (key_eqb_sym c b).
  by apply key_eqb_left.
Qed.

(** ** The ordered dictionary *)

Lemma od_mem_equiv a b m : key_eqb a b = true → od_mem a m = od_mem b m.
Proof.
  intros H. unfold od_mem. induction m as [|p m IH]; simpl; [done|].
  by rewrite IH, (key_eqb_right a b).
Qed.

Lemma od_mem_app k m1 m2 : od_mem k (m1 ++ m2) = od_mem k m1 || od_mem k m2.
Proof. unfold od_mem. apply existsb_app. Qed.

Lemma od_set_fresh k v m : od_mem k m = false → od_set k v m = m ++ [(k, v)].
Proof.
  induction m as [|[k' v'] m IH]; simpl; [done|].
  intros H. apply orb_false_iff in H as [H1 H2].
  rewrite H1. by rewrite IH.
Qed.

Lemma od_set_keys k v m :
  od_mem k m = true → map fst (od_set k v m) = map fst m.
Proof.
  induction m as [|[k' v'] m IH]; simpl; [done|].
  destruct (key_eqb k' k) eqn:E; simpl; [done|].
  intros H. by rewrite IH.
Qed.

Lemma od_mem_keys k m1 m2 : map fst m1 = map fst m2 → od_mem k m1 = od_mem k m2.
Proof.
  revert m2. induction m1 as [|p m1 IH]; intros [|q m2]; simpl; try done.
  intros H. injection H as H1 H2. unfold od_mem in *. simpl.
  by rewrite H1, (IH m2).
Qed.

Lemma od_nodup_keys m1 m2 : map fst m1 = map fst m2 → od_nodup m1 → od_nodup m2.
Proof.
  revert m2. induction m1 as [|p m1 IH]; intros [|q m2]; simpl; try done.
  intros H [H1 H2]. injection H as Hp Hm. split.
  - by rewrite <- Hp, <- (od_mem_keys _ m1 m2).
  - by apply IH.
Qed.

Lemma od_nodup_snoc m k v :
  od_nodup m → od_mem k m = false → od_nodup (m ++ [(k, v)]).
Proof.
  induction m as [|p m IH]; simpl.
  - done.
  - intros [H1 H2] H. apply orb_false_iff in H as [Hk Hm]. split.
    + rewrite od_mem_app, H1. simpl. by rewrite key_eqb_sym, Hk.
    + by apply IH.
Qed.

Lemma od_get_set u k v m :
  od_get u (od_set k v m) = if key_eqb k u then Some v else od_get u m.
Proof.
  unfold od_get. induction m as [|[k' v'] m IH]; simpl.
  - by destruct (key_eqb k u).
  - destruct (key_eqb k' k) eqn:E; simpl.
    + rewrite (key_eqb_left k' k u E). by destruct (key_eqb k u).
    + destruct (key_eqb k' u) eqn:E'; simpl; [|done].
      destruct (key_eqb k u) eqn:E''; [|done].
      rewrite (key_eqb_right k u k') in E by done. congruence.
Qed.

Lemma od_set_values_in k v m d :
  d ∈ map snd (od_set k v m) → d = v ∨ d ∈ map snd m.
Proof.
  induction m as [|[k' v'] m IH]; simpl.
  - rewrite list_elem_of_singleton. auto.
  - destruct (key_eqb k' k); simpl; rewrite !elem_of_cons.
    + intros [->|H]; auto.
    + intros [->|H]; [auto|]. destruct (IH H); auto.
Qed.

Lemma od_inv_set k d m :
  d !! "url" = Some k → hashable k = true → od_inv m → od_inv (od_set k d m).
Proof.
  intros Hurl Hh [Hnd Hall].
  assert (Hkk : has_url k d = true).
  { unfold has_url. rewrite Hurl. by apply key_eqb_refl. }
  destruct (od_mem k m) eqn:Hmem.
  - split.
    + eapply od_nodup_keys; [|exact Hnd]. symmetry. by apply od_set_keys.
    + clear Hnd. induction m as [|[k' v'] m IH]; simpl in *; [done|].
      inversion Hall as [|? ? [Hp1 Hp2] Hall']; subst. simpl in *.
      destruct (key_eqb k' k) eqn:E; simpl in *.
      * constructor; [|done]. simpl. split; [|done].
        unfold has_url. rewrite Hurl. by rewrite key_eqb_sym.
      * constructor; [done|]. by apply IH.
  - rewrite od_set_fresh by done. split.
    + by apply od_nodup_snoc.
    + apply Forall_app. split; [done|]. by repeat constructor.
Qed.

(** ** The de-duplication loop *)

Lemma find_snoc {A} (f : A → bool) l x :
  List.find f (l ++ [x]) =
  match List.find f l with
  | Some y => Some y
  | None => if f x then Some x else None
  end.
Proof.
  induction l as [|y l IH]; simpl; [done|].
  by destruct (f y).
Qed.

Lemma find_split {A} (f : A → bool) l x :
  List.find f l = Some x →
  ∃ a b, l = a ++ x :: b ∧ f x = true ∧ forallb (λ y, negb (f y)) a = true.
Proof.
  induction l as [|y l IH]; simpl; [done|].
  destruct (f y) eqn:E.
  - intros [= ->]. by exists [], l.
  - intros H. destruct (IH H) as (a & b & -> & Hx & Ha).
    exists (y :: a), b. simpl. by rewrite E.
Qed.

Lemma find_existsb {A} (f : A → bool) l :
  existsb f l = true → ∃ x, List.find f l = Some x.
Proof.
  induction l as [|y l IH]; simpl; [done|].
  destruct (f y); eauto.
Qed.

Lemma forallb_rev {A} (f : A → bool) l : forallb f (rev l) = forallb f l.
Proof.
  induction l as [|y l IH]; simpl; [done|].
  rewrite forallb_app, IH. simpl. by rewrite andb_true_r, andb_comm.
Qed.

(** The loop keeps the invariant, adds no deal of its own, and under each
    url leaves the last deal of the input that carries it. *)
Lemma dedupe_loop_spec deals : ∀ m m',
  dedupe_loop deals m = Ok m' → od_inv m →
  od_inv m'
  ∧ (∀ d, d ∈ map snd m' → d ∈ deals ∨ d ∈ map snd m)
  ∧ (∀ u, od_get u m' =
          match List.find (has_url u) (rev deals) with
          | Some d => Some d
          | None => od_get u m
          end).
Proof.
  induction deals as [|d rest IH]; simpl; intros m m' H Hinv.
  - injection H as <-. auto.
  - inv_bind H. apply getitem_Ok in Ha.
    destruct (hashable a) eqn:Hh; [|discriminate].
    destruct (IH _ _ H (od_inv_set _ _ _ Ha Hh Hinv)) as (Hinv' & Hin & Hget).
    split; [done|]. split.
    + intros x Hx. destruct (Hin x Hx) as [Hx'|Hx']; [left; by right|].
      apply od_set_values_in in Hx' as [->|Hx']; [left; by left | by right].
    + intros u. rewrite Hget, find_snoc, od_get_set.
      destruct (List.find (has_url u) (rev rest)); [done|].
      unfold has_url at 1. rewrite Ha. by destruct (key_eqb a u).
Qed.

Lemma dedupe_loop_total deals : ∀ m,
  Forall url_ok deals → ∃ m', dedupe_loop deals m = Ok m'.
Proof.
  induction deals as [|d rest IH]; simpl; intros m H; [eauto|].
  inversion H as [|? ? (v & Hv & Hh) H']; subst.
  unfold getitem. rewrite Hv. simpl. rewrite Hh. by apply IH.
Qed.

Lemma od_get_split u d m :
  od_nodup m → od_get u m = Some d →
  ∃ m1 k m2, m = m1 ++ (k, d) :: m2 ∧ key_eqb k u = true
             ∧ od_mem u m1 = false ∧ od_mem u m2 = false.
Proof.
  unfold od_get. intros Hnd H.
  destruct (List.find _ m) as [[k d']|] eqn:Hf; [|done].
  injection H as ->.
  apply find_split in Hf as (m1 & m2 & -> & Hk & Hm1). simpl in Hk.
  exists m1, k, m2. split; [done|]. split; [done|]. split.
  - clear Hnd. induction m1 as [|p m1 IH]; simpl in *; [done|].
    apply andb_true_iff in Hm1 as [Hp Hm1].
    apply negb_true_iff in Hp. rewrite Hp. by apply IH.
  - clear Hm1. induction m1 as [|p m1 IH]; simpl in Hnd.
    + destruct Hnd as [Hnd _]. simpl in Hnd.
      by rewrite <- (od_mem_equiv k u).
    + apply IH. by destruct Hnd.
Qed.

Lemma od_inv_foreign u m :
  Forall (λ p : pyval * dict, has_url p.1 p.2 = true ∧ hashable p.1 = true) m →
  od_mem u m = false →
  forallb (λ x, negb (has_url u x)) (map snd m) = true.
Proof.
  induction m as [|[k d] m IH]; simpl; [done|].
  intros H Hm. inversion H as [|? ? [Hp _] H']; subst. simpl in Hp.
  apply orb_false_iff in Hm as [Hk Hm].
  rewrite IH by done. rewrite andb_true_r. apply negb_true_iff.
  unfold has_url in *. destruct (d !! "url") as [v|]; [|done].
  by rewrite (key_eqb_left v k u Hp).
Qed.

(** Deals whose urls are the distinct keys of [m], fed to the loop again,
    are appended one by one. *)
Lemma dedupe_loop_values m : ∀ acc,
  od_inv m → Forall (λ p, od_mem p.1 acc = false) m →
  ∃ r, dedupe_loop (map snd m) acc = Ok r
       ∧ map snd r = map snd acc ++ map snd m.
Proof.
  induction m as [|[k d] m IH]; simpl; intros acc [Hnd Hall] Hacc.
  - exists acc. by rewrite app_nil_r.
  - destruct Hnd as [Hk Hnd].
    inversion Hall as [|? ? [Hp Hh] Hall']; subst. simpl in *.
    inversion Hacc as [|? ? Hka Hacc']; subst. simpl in *.
    unfold has_url in Hp. destruct (d !! "url") as [v|] eqn:Hv; [|done].
    assert (Hvh : hashable v = true).
    { destruct v, k; simpl in *; done. }
    unfold getitem. rewrite Hv. simpl. rewrite Hvh.
    rewrite od_set_fresh by (by rewrite (od_mem_equiv v k)).
    destruct (IH (acc ++ [(v, d)])) as (r & Hr & Hs).
    + done.
    + clear IH Hall Hacc Hnd Hall'.
      induction m as [|q m IHm]; [constructor|].
      inversion Hacc' as [|? ? Hq Hacc'']; subst.
      simpl in Hk. apply orb_false_iff in Hk as [Hqk Hk].
      constructor; [|by apply IHm].
      rewrite od_mem_app, Hq. simpl.
      by rewrite (key_eqb_left v k q.1 Hp), key_eqb_sym, Hqk.
    + exists r. split; [done|].
      by rewrite Hs, map_app, <- app_assoc.
Qed.

(** C6. Last-wins de-duplication.  Deals that all carry a url are
    de-duplicated without error.  Whatever list the de-duplication returns
    is made of input deals only, and for every url [u] that occurs in the
    input it holds exactly one deal with that url, namely the last input
    deal that carries it.  In particular two deals [A] then [B] with the
    same url give [[B]]. *)
Theorem dedupe_last_wins (deals : list dict) :
  (Forall url_ok deals → ∃ out, dedupe deals = Ok out)
  ∧ (∀ out, dedupe deals = Ok out →
       (∀ d, d ∈ out → d ∈ deals) ∧ last_wins deals out)
  ∧ (∀ A B, deals = [A; B] → url_ok A → A !! "url" = B !! "url" →
       dedupe deals = Ok [B]).
Proof.
  split; [|split].
  - intros Hok. destruct (dedupe_loop_total deals [] Hok) as [m Hm].
    exists (map snd m). unfold dedupe. by rewrite Hm.
  - intros out Hout. unfold dedupe in Hout. inv_bind Hout.
    rename a into m, Ha into Hm. injection Hout as <-.
    assert (Hinv0 : od_inv []) by (split; [exact I | constructor]).
    destruct (dedupe_loop_spec _ _ _ Hm Hinv0) as ([Hnd Hall] & Hin & Hget).
    split.
    + intros d Hd. destruct (Hin d Hd) as [H|H]; [done|]. simpl in H.
      by apply elem_of_nil in H.
    + intros u Hu.
      assert (Hu' : existsb (has_url u) (rev deals) = true).
      { apply existsb_exists in Hu as (x & Hx1 & Hx2).
        apply existsb_exists. exists x. split; [|done]. by apply in_rev in Hx1. }
      apply find_existsb in Hu' as [d Hd].
      specialize (Hget u). rewrite Hd in Hget.
      apply find_split in Hd as (a & b & Hrev & Hd & Ha).
      apply od_get_split in Hget as (m1 & k & m2 & -> & Hk & Hm1 & Hm2); [|done].
      exists (rev b), d, (rev a), (map snd m1), (map snd m2).
      split.
      { rewrite <- (rev_involutive deals), Hrev, rev_app_distr. simpl.
        by rewrite <- app_assoc. }
      split; [done|]. split; [by rewrite forallb_rev|]. split.
      { by rewrite map_app. }
      apply Forall_app in Hall as [Hall1 Hall2].
      inversion Hall2; subst.
      rewrite forallb_app, !od_inv_foreign; done.
  - intros A B -> (u & HA & Hh) HAB.
    unfold dedupe. simpl. unfold getitem. rewrite <- HAB, HA. simpl.
    by rewrite Hh, (key_eqb_refl u Hh).
Qed.

(** C7. De-duplication is idempotent: de-duplicating the result again gives
    the same list, deal for deal and in the same order (an input the loop
    rejects is rejected the same way). *)
Theorem dedupe_idempotent (deals : list dict) :
  dedupe deals ≫= dedupe = dedupe deals.
Proof.
  unfold dedupe at 2 3.
  destruct (dedupe_loop deals []) as [m|e] eqn:Hm; simpl; [|done].
  assert (Hinv0 : od_inv []) by (split; [exact I | constructor]).
  destruct (dedupe_loop_spec _ _ _ Hm Hinv0) as (Hinv & _ & _).
  destruct (dedupe_loop_values m [] Hinv) as (r & Hr & Hs).
  - apply Forall_forall. done.
  - unfold dedupe. rewrite Hr. simpl. by rewrite Hs.
Qed.

(** ** Rounding *)

Lemma Qlt_bool_iff a b : Qlt_bool a b = true ↔ (a < b)%Q.
Proof.
  unfold Qlt_bool. rewrite negb_true_iff. split.
  - intros H. apply Qnot_le_lt. intros Hle.
    apply Qle_bool_iff in Hle. congruence.
  - intros H. destruct (Qle_bool b a) eqn:E; [|done].
    apply Qle_bool_iff in E. by apply Qlt_not_le in H.
Qed.

Lemma Qlt_bool_false a b : Qlt_bool a b = false → (b <= a)%Q.
Proof.
  unfold Qlt_bool. rewrite negb_false_iff. apply Qle_bool_iff.
Qed.

(** Rounding never goes below the floor. *)
Lemma round_half_even_floor x : (Qnum x / Zpos (Qden x) <= round_half_even x)%Z.
Proof.
  unfold round_half_even.
  destruct (2 * (Qnum x mod Zpos (Qden x)) ?= Zpos (Qden x)); [|lia|lia].
  destruct (Z.even _); lia.
Qed.

Lemma round_half_even_lower k x :
  (inject_Z k <= x)%Q → (k <= round_half_even x)%Z.
Proof.
  intros H. etrans; [|apply round_half_even_floor].
  apply Z.div_le_lower_bound; [lia|].
  unfold Qle in H. simpl in H. lia.
Qed.

(** An integer is its own rounding. *)
Lemma round_half_even_int k x : (x == inject_Z k)%Q → round_half_even x = k.
Proof.
  unfold Qeq. simpl. intros H. unfold round_half_even.
  assert (Hn : Qnum x = k * Zpos (Qden x)) by lia.
  rewrite Hn, Z.div_mul, Z.mod_mul by lia.
  simpl. done.
Qed.

Lemma round3_one x : (x == 1)%Q → round3 x = Qmake 1000 1000.
Proof.
  intros H. unfold round3. f_equal. apply round_half_even_int.
  rewrite H. reflexivity.
Qed.

Lemma round3_above_one x : (1001 # 1000 <= x)%Q → (1 < round3 x)%Q.
Proof.
  intros H. unfold round3.
  assert (1001 <= round_half_even (x * inject_Z 1000))%Z.
  { apply round_half_even_lower.
    unfold Qle in *. simpl in *. lia. }
  unfold Qlt. simpl. lia.
Qed.

(** ** Sorting *)

Lemma insert_desc_perm x l : Permutation (insert_desc x l) (x :: l).
Proof.
  induction l as [|y l IH]; simpl; [done|].
  destruct (Qlt_bool _ _); [|done].
  rewrite IH. apply perm_swap.
Qed.

Lemma sort_desc_perm l : Permutation (sort_desc l) l.
Proof.
  induction l as [|x l IH]; simpl; [done|].
  by rewrite insert_desc_perm, IH.
Qed.

Lemma insert_desc_sorted x l :
  StronglySorted by_score_desc l → StronglySorted by_score_desc (insert_desc x l).
Proof.
  induction 1 as [|y l Hl IH Hy]; simpl.
  - repeat constructor.
  - destruct (Qlt_bool (score_key x) (score_key y)) eqn:E.
    + constructor; [done|].
      rewrite insert_desc_perm. constructor; [|done].
      apply Qlt_bool_iff in E. by apply Qlt_le_weak.
    + apply Qlt_bool_false in E.
      constructor; [by constructor|].
      constructor; [done|].
      eapply Forall_impl; [exact Hy|]. unfold by_score_desc. simpl.
      intros z Hz. by apply Qle_trans with (score_key y).
Qed.

Lemma sort_desc_sorted l : StronglySorted by_score_desc (sort_desc l).
Proof.
  induction l as [|x l IH]; simpl; [constructor|].
  by apply insert_desc_sorted.
Qed.

Lemma insert_desc_filter s x l :
  List.filter (same_score s) (insert_desc x l)
  = List.filter (same_score s) (x :: l).
Proof.
  induction l as [|y l IH]; [done|].
  cbn [insert_desc].
  destruct (Qlt_bool (score_key x) (score_key y)) eqn:E; [|done].
  cbn [List.filter] in *. rewrite IH.
  destruct (same_score s x) eqn:Ex, (same_score s y) eqn:Ey; try done.
  unfold same_score in *. apply Qeq_bool_iff in Ex, Ey.
  apply Qlt_bool_iff in E. rewrite Ex, Ey in E. by apply Qlt_irrefl in E.
Qed.

Lemma sort_desc_filter s l :
  List.filter (same_score s) (sort_desc l) = List.filter (same_score s) l.
Proof.
  induction l as [|x l IH]; [done|].
  cbn [sort_desc]. rewrite insert_desc_filter. cbn [List.filter].
  by rewrite IH.
Qed.

(** ** The scoring loop *)

Section ScorerProperties.

Variable km : Q → Q → Q → Q → res Q.
Variable today : Z.
Variable fromisoformat : string → option Z.

Lemma score_loop_Forall2 w target hq_lat hq_lon maxd deals : ∀ scored,
  score_loop km today fromisoformat w target hq_lat hq_lon maxd deals
    = Ok scored →
  Forall2 (λ d d2, score_deal km today fromisoformat w target
                     hq_lat hq_lon maxd d = Ok d2) deals scored.
Proof.
  induction deals as [|d rest IH]; simpl; intros scored H.
  - injection H as <-. constructor.
  - inv_bind H. inv_bind H. injection H as <-.
    constructor; [done|]. by apply IH.
Qed.

(** A successful run found the five fields of the configuration, scored
    every deal in input order, and sorted the result. *)
Lemma score_deals_inv deals cfg out :
  score_deals km today fromisoformat deals cfg = Ok out →
  ∃ w target hq_lat hq_lon maxd scored,
    cfg_weights cfg = Some w
    ∧ cfg_target_categories cfg = Some target
    ∧ cfg_hq_lat cfg = Some hq_lat
    ∧ cfg_hq_lon cfg = Some hq_lon
    ∧ cfg_max_distance_km_for_full_points cfg = Some maxd
    ∧ Forall2 (λ d d2, score_deal km today fromisoformat w target
                         hq_lat hq_lon maxd d = Ok d2) deals scored
    ∧ out = sort_desc scored.
Proof.
  unfold score_deals, cfg_getitem. intros H.
  destruct (cfg_weights cfg) as [w|]; [|done].
  destruct (cfg_target_categories cfg) as [target|]; [|done].
  destruct (cfg_hq_lat cfg) as [hq_lat|]; [|done].
  destruct (cfg_hq_lon cfg) as [hq_lon|]; [|done].
  destruct (cfg_max_distance_km_for_full_points cfg) as [maxd|]; [|done].
  simpl in H. inv_bind H. injection H as <-.
  exists w, target, hq_lat, hq_lon, maxd, a.
  repeat (split; [done|]). split; [|done].
  by apply score_loop_Forall2.
Qed.

(** What a scored deal is made of. *)
Lemma score_deal_inv w target hq_lat hq_lon maxd d d2 :
  score_deal km today fromisoformat w target hq_lat hq_lon maxd d = Ok d2 →
  ∃ margin pte ff fc fd score,
    raw_margin d = Ok margin
    ∧ raw_pte d = Ok pte
    ∧ d2 = <["features" :=
               VFeat (features (f_margin margin) (f_pte pte)
                        (f_recent (days_listed today fromisoformat d))
                        ff fc fd)]>
             (<["score" := VNum (round3 score)]> d).
Proof.
  unfold score_deal. intros H.
  inv_bind H. rename a into margin, Ha into Hm.
  inv_bind H. rename a into pte, Ha into Hp.
  inv_bind H. rename a into ff, Ha into Hff.
  inv_bind H. rename a into fc, Ha into Hfc.
  inv_bind H. rename a into fd, Ha into Hfd.
  inv_bind H. rename a into score, Ha into Hs.
  injection H as <-.
  by exists margin, pte, ff, fc, fd, score.
Qed.

Lemma score_deal_augmented w target hq_lat hq_lon maxd d d2 :
  score_deal km today fromisoformat w target hq_lat hq_lon maxd d = Ok d2 →
  augmented d d2.
Proof.
  intros H. apply score_deal_inv in H
    as (margin & pte & ff & fc & fd & score & _ & _ & ->).
  unfold augmented. eauto.
Qed.

Lemma score_deal_score_key w target hq_lat hq_lon maxd d d2 :
  score_deal km today fromisoformat w target hq_lat hq_lon maxd d = Ok d2 →
  d2 !! "score" = Some (VNum (score_key d2)).
Proof.
  intros H. apply score_deal_inv in H
    as (margin & pte & ff & fc & fd & score & _ & _ & ->).
  unfold score_key.
  by rewrite !lookup_insert_ne, !lookup_insert_eq by done.
Qed.

(** C2 (as amended).  The scorer returns the input deals, each augmented
    with [score] and [features], rearranged by descending score: the
    result is a permutation of the augmented deals taken in input order,
    and it is sorted. *)
Theorem score_deals_augments_and_sorts deals cfg out :
  score_deals km today fromisoformat deals cfg = Ok out →
  ∃ scored,
    Forall2 augmented deals scored
    ∧ Permutation scored out
    ∧ StronglySorted by_score_desc out.
Proof.
  intros H. apply score_deals_inv in H
    as (w & target & hq_lat & hq_lon & maxd & scored & _ & _ & _ & _ & _
        & Hall & ->).
  exists scored. split; [|split].
  - eapply Forall2_impl; [exact Hall|]. intros d d2.
    apply score_deal_augmented.
  - symmetry. apply sort_desc_perm.
  - apply sort_desc_sorted.
Qed.

(** C8.  The ranking at the end of [score_deals] orders the scored deals
    by descending score and is stable: the deals of any one score stand
    in the output in the order in which they were scored, which is the
    input order. *)
Theorem score_deals_ranking_stable deals cfg out :
  score_deals km today fromisoformat deals cfg = Ok out →
  ∃ scored,
    Forall2 (scored_by km today fromisoformat cfg) deals scored
    ∧ StronglySorted by_score_desc out
    ∧ ∀ s, List.filter (same_score s) out = List.filter (same_score s) scored.
Proof.
  intros H. apply score_deals_inv in H
    as (w & target & hq_lat & hq_lon & maxd & scored & Hw & Ht & Hla & Hlo
        & Hm & Hall & ->).
  exists scored. split; [|split].
  - eapply Forall2_impl; [exact Hall|]. intros d d2 Hd.
    by exists w, target, hq_lat, hq_lon, maxd.
  - apply sort_desc_sorted.
  - intros s. apply sort_desc_filter.
Qed.

End ScorerProperties.

(** ** Features of a scored deal *)

Lemma features_lookup_pte fm fp fr ff fc fd :
  features fm fp fr ff fc fd !! "price_to_ebitda" = Some (round3 fp).
Proof.
  unfold features. simpl.
  by rewrite !lookup_insert_ne, !lookup_insert_eq by done.
Qed.

Lemma features_lookup_recency fm fp fr ff fc fd :
  features fm fp fr ff fc fd !! "recency" = Some (round3 fr).
Proof.
  unfold features. simpl.
  by rewrite !lookup_insert_ne, !lookup_insert_eq by done.
Qed.

Lemma weighted_missing w k fm fp fr ff fc fd :
  k ∈ weight_keys → w !! k = None →
  ∃ k', weighted w fm fp fr ff fc fd = Raise (KeyError k').
Proof.
  intros Hk Hw. unfold weighted, getitem.
  destruct (w !! "ebitda_margin") eqn:E1; simpl; [|eauto].
  destruct (w !! "price_to_ebitda") eqn:E2; simpl; [|eauto].
  destruct (w !! "recency") eqn:E3; simpl; [|eauto].
  destruct (w !! "ownership_freehold") eqn:E4; simpl; [|eauto].
  destruct (w !! "category_match") eqn:E5; simpl; [|eauto].
  destruct (w !! "proximity_se_qld") eqn:E6; simpl; [|eauto].
  unfold weight_keys in Hk.
  repeat (apply elem_of_cons in Hk as [->|Hk]; [congruence|]).
  by apply elem_of_nil in Hk.
Qed.

(** With no price and positive earnings the raw multiple is [0 / e]. *)
Lemma raw_pte_no_price d e :
  get d "asking_price_aud" = VNone → d !! "ebitda_aud" = Some (VNum e) →
  (0 < e)%Q → raw_pte d = Ok (0 / e)%Q.
Proof.
  intros Hp He Hpos. unfold raw_pte. rewrite Hp.
  unfold get. rewrite He. simpl.
  assert (Hne : Qeq_bool e 0 = false).
  { destruct (Qeq_bool e 0) eqn:E; [|done].
    apply Qeq_bool_iff in E. rewrite E in Hpos. by apply Qlt_irrefl in Hpos. }
  unfold py_or. simpl. rewrite Hne. simpl.
  apply Qlt_bool_iff in Hpos. by rewrite Hpos.
Qed.

Lemma f_pte_zero pte : (pte == 0)%Q → (f_pte pte == 1)%Q.
Proof.
  intros H. unfold f_pte. rewrite H.
  rewrite Q.min_l; [reflexivity | done].
Qed.

(** A listing dated after today has a negative age. *)
Lemma days_listed_future today fromisoformat d s listed :
  d !! "date_listed" = Some (VStr s) → fromisoformat s = Some listed →
  days_listed today fromisoformat d = today - listed.
Proof.
  intros Hd Hs. unfold days_listed, getitem. rewrite Hd. simpl.
  by rewrite Hs.
Qed.

Lemma f_recent_future days : days < 0 → (1001 # 1000 <= f_recent days)%Q.
Proof.
  intros H. unfold f_recent.
  apply Qle_trans with (1 - inject_Z days / inject_Z 30)%Q;
    [|apply Q.le_max_r].
  unfold Qle, Qminus, Qdiv, Qplus, Qopp, Qmult, Qinv, inject_Z. simpl. lia.
Qed.

Section ScoringClaims.

Variable km : Q → Q → Q → Q → res Q.
Variable today : Z.
Variable fromisoformat : string → option Z.

(** Every input deal of a successful run has its scored deal in the
    output. *)
Lemma score_deals_elem deals cfg out d :
  score_deals km today fromisoformat deals cfg = Ok out → d ∈ deals →
  ∃ d2, d2 ∈ out ∧ scored_by km today fromisoformat cfg d d2.
Proof.
  intros H Hd. apply score_deals_inv in H
    as (w & target & hq_lat & hq_lon & maxd & scored & Hw & Ht & Hla & Hlo
        & Hm & Hall & ->).
  apply list_elem_of_lookup in Hd as [i Hi].
  destruct (Forall2_lookup_l _ _ _ _ _ Hall Hi) as (d2 & Hi2 & Hd2).
  exists d2. split.
  - rewrite sort_desc_perm. apply list_elem_of_lookup. eauto.
  - by exists w, target, hq_lat, hq_lon, maxd.
Qed.

(** C10.  A deal without asking price but with positive earnings gets a
    raw price-to-earnings multiple of zero and the full [price_to_ebitda]
    feature, 1. *)
Theorem missing_price_full_credit deals cfg out d e :
  score_deals km today fromisoformat deals cfg = Ok out →
  d ∈ deals →
  get d "asking_price_aud" = VNone →
  d !! "ebitda_aud" = Some (VNum e) → (0 < e)%Q →
  ∃ d2 pte x,
    d2 ∈ out
    ∧ scored_by km today fromisoformat cfg d d2
    ∧ raw_pte d = Ok pte ∧ (pte == 0)%Q
    ∧ feature d2 "price_to_ebitda" = Some x ∧ (x == 1)%Q.
Proof.
  intros H Hd Hp He Hpos.
  destruct (score_deals_elem _ _ _ _ H Hd) as (d2 & Hin & Hsc).
  pose proof Hsc as (w & target & hq_lat & hq_lon & maxd & _ & _ & _ & _ & _
                     & Hd2).
  apply score_deal_inv in Hd2
    as (margin & pte & ff & fc & fd & score & _ & Hpte & ->).
  rewrite (raw_pte_no_price d e Hp He Hpos) in Hpte. injection Hpte as <-.
  assert (Hz : (0 / e == 0)%Q).
  { unfold Qdiv. apply Qmult_0_l. }
  eexists _, (0 / e)%Q, (round3 (f_pte (0 / e))).
  split; [done|]. split; [done|].
  split; [by apply raw_pte_no_price|]. split; [done|]. split.
  - unfold feature. rewrite lookup_insert_eq. apply features_lookup_pte.
  - rewrite (round3_one (f_pte (0 / e))); [reflexivity|].
    by apply f_pte_zero.
Qed.

(** C1 (the code against the claim).  A deal whose [date_listed] lies
    after the scorer's current date comes out with a [recency] feature
    above 1: the recency is cut off at 0 only. *)
Theorem future_listing_recency_above_one deals cfg out d s listed :
  score_deals km today fromisoformat deals cfg = Ok out →
  d ∈ deals →
  d !! "date_listed" = Some (VStr s) → fromisoformat s = Some listed →
  today < listed →
  ∃ d2 x,
    d2 ∈ out
    ∧ scored_by km today fromisoformat cfg d d2
    ∧ feature d2 "recency" = Some x ∧ (1 < x)%Q.
Proof.
  intros H Hd Hdate Hs Hlt.
  destruct (score_deals_elem _ _ _ _ H Hd) as (d2 & Hin & Hsc).
  pose proof Hsc as (w & target & hq_lat & hq_lon & maxd & _ & _ & _ & _ & _
                     & Hd2).
  apply score_deal_inv in Hd2
    as (margin & pte & ff & fc & fd & score & _ & _ & ->).
  eexists _, _. split; [done|]. split; [done|]. split.
  - unfold feature. rewrite lookup_insert_eq. apply features_lookup_recency.
  - apply round3_above_one, f_recent_future.
    rewrite (days_listed_future _ _ _ _ _ Hdate Hs). lia.
Qed.

Lemma score_deal_missing_weight w k target hq_lat hq_lon maxd d :
  k ∈ weight_keys → w !! k = None →
  ∃ e, score_deal km today fromisoformat w target hq_lat hq_lon maxd d
       = Raise e.
Proof.
  intros Hk Hw. unfold score_deal.
  destruct (raw_margin d) as [margin|]; simpl; [|eauto].
  destruct (raw_pte d) as [pte|]; simpl; [|eauto].
  destruct (f_freehold d) as [ff|]; simpl; [|eauto].
  destruct (f_cat d target) as [fc|]; simpl; [|eauto].
  destruct (f_dist km hq_lat hq_lon maxd d) as [fd|]; simpl; [|eauto].
  destruct (weighted_missing w k (f_margin margin) (f_pte pte)
              (f_recent (days_listed today fromisoformat d)) ff fc fd Hk Hw)
    as [k' ->].
  simpl. eauto.
Qed.

(** C9 (as amended).  A configuration without one of its five top-level
    fields makes [score_deals] raise [KeyError] before any deal is
    looked at.  A weights mapping without one of the six weights makes it
    raise as soon as there is a first deal to score; no default weight is
    put in its place. *)
Theorem score_deals_incomplete_config deals cfg :
  (missing_field cfg →
   ∃ k, score_deals km today fromisoformat deals cfg = Raise (KeyError k))
  ∧ (missing_weight cfg → deals ≠ [] →
     ∃ e, score_deals km today fromisoformat deals cfg = Raise e).
Proof.
  split.
  - unfold missing_field, score_deals, cfg_getitem.
    destruct (cfg_weights cfg); simpl; [|eauto].
    destruct (cfg_target_categories cfg); simpl; [|eauto].
    destruct (cfg_hq_lat cfg); simpl; [|eauto].
    destruct (cfg_hq_lon cfg); simpl; [|eauto].
    destruct (cfg_max_distance_km_for_full_points cfg); simpl; [|eauto].
    intros H. repeat (destruct H as [H|H]; [done|]). done.
  - intros (w & k & Hw & Hk & Hnone) Hne.
    unfold score_deals, cfg_getitem. rewrite Hw. simpl.
    destruct (cfg_target_categories cfg); simpl; [|eauto].
    destruct (cfg_hq_lat cfg); simpl; [|eauto].
    destruct (cfg_hq_lon cfg); simpl; [|eauto].
    destruct (cfg_max_distance_km_for_full_points cfg); simpl; [|eauto].
    destruct deals as [|d rest]; [done|]. simpl.
    destruct (score_deal_missing_weight w k l q q0 q1 d Hk Hnone) as [e ->].
    simpl. eauto.
Qed.

End ScoringClaims.

(** ** The price parser and the normaliser *)

(** C3 (the code against the claim).  The price parser raises
    [ValueError] on text whose first run of digits and dots is not a
    number: a lone dot, or a run with two dots. *)
Theorem norm_price_raises :
  norm_price "." = Raise ValueError
  ∧ norm_price "v1.2.3" = Raise ValueError.
Proof. split; reflexivity. Qed.

Lemma all_chars_app p s t :
  all_chars p (s +:+ t) = all_chars p s && all_chars p t.
Proof.
  induction s as [|a s IH]; simpl; [done|]. by rewrite IH, andb_assoc.
Qed.


Lemma span_all_app p s t :
  all_chars p s = true →
  match t with String u _ => p u = false | EmptyString => True end →
  span p (s +:+ t) = (s, t).
Proof.
  intros Hs Ht. induction s as [|a s IH].
  - destruct t as [|u t]; simpl; [done|]. by rewrite Ht.
  - simpl in Hs. apply andb_true_iff in Hs as [Ha Hs].
    change (String a s +:+ t) with (String a (s +:+ t)).
    cbn [span]. rewrite Ha, IH; done.
Qed.


Lemma span_spec p s : ∀ a b,
  span p s = (a, b) →
  s = a +:+ b ∧ all_chars p a = true
  ∧ match b with String u _ => p u = false | EmptyString => True end.
Proof.
  induction s as [|c s IH]; simpl; intros a b H.
  - by injection H as <- <-.
  - destruct (p c) eqn:E.
    + destruct (span p s) as [a' b'] eqn:Hs. injection H as <- <-.
      destruct (IH _ _ eq_refl) as (-> & Ha & Hb).
      simpl. by rewrite E.
    + injection H as <- <-. by rewrite E.
Qed.














Lemma append_cons c s t : String c s +:+ t = String c (s +:+ t).
Proof. reflexivity. Qed.







Lemma price_match_marker s g : price_match_at s g → price_marker_at s.
Proof.
  intros (a & u & d & dollar & sp & digits & unit & rest & -> & Ha & Hu & Hd
          & Hdo & Hsp & Hne & Hdig & _ & _).
  destruct digits as [|c digits]; [done|].
  simpl in Hdig. apply andb_true_iff in Hdig as [Hc _].
  exists a, u, d, dollar, sp, c, (digits +:+ unit +:+ rest).
  by rewrite <- append_cons.
Qed.






Section NormalizerProperties.

Variable py_hash : pyval → Z.
Variable py_repr : pyval → string.

(** What a normalised hit holds under [id] and [asking_price_aud]. *)
Lemma normalize_hit_inv now hit source d :
  normalize_hit py_hash py_repr now hit source = Ok d →
  ∃ snippet title p name,
    get_or hit "snippet" (VStr "") = VStr snippet
    ∧ py_strip (get_or hit "title" (VStr "")) = Ok title
    ∧ parse_price (snippet +:+ " " +:+ title) = Ok p
    ∧ source !! "name" = Some name
    ∧ d !! "asking_price_aud" = Some p
    ∧ d !! "id" =
        Some (VStr (py_str py_repr name +:+ "-"
                    +:+ pretty (Z.abs (py_hash (get hit "link"))
                                mod 10000000))).
Proof.
  unfold normalize_hit. intros H.
  inv_bind H. rename a into title, Ha into Htitle.
  inv_bind H. rename a into text, Ha into Htext.
  inv_bind H. rename a into p, Ha into Hp.
  inv_bind H. rename a into name, Ha into Hname.
  inv_bind H. rename a into h, Ha into Hh.
  inv_bind H. rename a into name', Ha into Hname'.
  injection H as <-.
  unfold py_add_str in Htext.
  destruct (get_or hit "snippet" (VStr "")) as [|snippet| |] eqn:Hs; try done.
  injection Htext as <-.
  unfold hash in Hh. destruct (hashable (get hit "link")); [|done].
  injection Hh as <-.
  exists snippet, title, p, name.
  split; [done|]. split; [done|]. split; [done|].
  split; [by apply getitem_Ok|]. split.
  - simpl. by rewrite !lookup_insert_ne, lookup_insert_eq by done.
  - simpl. by rewrite lookup_insert_eq.
Qed.


(** C5 (as amended).  Under one [hash], that is within one interpreter
    process, the [id] depends on nothing but the source's name and the
    hit's link: hits that agree on the link, from sources that agree on
    the name, get the same [id], whatever else they hold and whenever
    they are normalised. *)
Theorem normalize_hit_id_deterministic now1 now2 hit1 hit2 source1 source2
    d1 d2 :
  get hit1 "link" = get hit2 "link" →
  source1 !! "name" = source2 !! "name" →
  normalize_hit py_hash py_repr now1 hit1 source1 = Ok d1 →
  normalize_hit py_hash py_repr now2 hit2 source2 = Ok d2 →
  d1 !! "id" = d2 !! "id"
  ∧ ∃ name,
      source1 !! "name" = Some name
      ∧ d1 !! "id" =
          Some (VStr (py_str py_repr name +:+ "-"
                      +:+ pretty (Z.abs (py_hash (get hit1 "link"))
                                  mod 10000000))).
Proof.
  intros Hlink Hname H1 H2.
  apply normalize_hit_inv in H1
    as (_ & _ & _ & name1 & _ & _ & _ & Hn1 & _ & Hid1).
  apply normalize_hit_inv in H2
    as (_ & _ & _ & name2 & _ & _ & _ & Hn2 & _ & Hid2).
  split; [|eauto].
  rewrite Hid1, Hid2, Hlink.
  assert (name1 = name2) as -> by congruence. done.
Qed.

End NormalizerProperties.

(** * The claims on sample inputs *)

Lemma is_ok_Ok {A} (r : res A) : is_ok r = true → ∃ a, r = Ok a.
Proof. destruct r; [eauto | discriminate]. Qed.

Lemma augmented_title d d2 : augmented d d2 → d2 !! "title" = d !! "title".
Proof.
  intros (s & f & ->). by rewrite !lookup_insert_ne by done.
Qed.

(** ** Where the code departs from the specification *)

(** C2.  The scorer does not keep the input order: the bakery is scored
    first and returned last, so the output is not the list of augmented
    input deals in input order. *)
Lemma scorer_reorders :
  ∃ out,
    score_deals sample_km 739617 sample_fromisoformat
      [deal_bakery; deal_cafe] sample_config = Ok out
    ∧ ¬ Forall2 augmented [deal_bakery; deal_cafe] out.
Proof.
  assert (Ht : titles (score_deals sample_km 739617 sample_fromisoformat
                         [deal_bakery; deal_cafe] sample_config)
               = Ok [Some (VStr "Cafe"); Some (VStr "Bakery")])
    by (vm_compute; reflexivity).
  destruct (score_deals _ _ _ _ _) as [out|e]; [|discriminate].
  exists out. split; [done|].
  intros H. apply Forall2_cons_inv_l in H as (d2 & out' & Hd2 & _ & ->).
  apply augmented_title in Hd2.
  simpl in Ht. injection Ht as Ht _. rewrite Hd2 in Ht.
  vm_compute in Ht. discriminate.
Qed.


(** C5.  Two processes, which hash strings under different secrets, give
    the same hit from the same source different ids. *)
Lemma id_differs_between_processes :
  field_of (normalize_hit (sample_hash 1) sample_repr "2026-01-01"
              hit_marked sample_source) "id"
    = Ok (Some (VStr "bsale-5819825"))
  ∧ field_of (normalize_hit (sample_hash 2) sample_repr "2026-01-01"
                hit_marked sample_source) "id"
    = Ok (Some (VStr "bsale-97296"))
  ∧ field_of (normalize_hit (sample_hash 1) sample_repr "2026-01-01"
                hit_marked sample_source) "id"
    ≠ field_of (normalize_hit (sample_hash 2) sample_repr "2026-01-01"
                  hit_marked sample_source) "id".
Proof.
  assert (H1 : field_of (normalize_hit (sample_hash 1) sample_repr
                            "2026-01-01" hit_marked sample_source) "id"
               = Ok (Some (VStr "bsale-5819825")))
    by (vm_compute; reflexivity).
  assert (H2 : field_of (normalize_hit (sample_hash 2) sample_repr
                            "2026-01-01" hit_marked sample_source) "id"
               = Ok (Some (VStr "bsale-97296")))
    by (vm_compute; reflexivity).
  split; [exact H1|]. split; [exact H2|].
  rewrite H1, H2. discriminate.
Qed.

(** C9.  With no deal to score, a configuration that lacks a weight goes
    unnoticed: the scorer returns the empty list. *)
Lemma no_deals_no_error :
  missing_weight config_without_recency
  ∧ score_deals sample_km 739617 sample_fromisoformat [] config_without_recency
    = Ok [].
Proof.
  split; [|reflexivity].
  exists (delete "recency" sample_weights), "recency".
  split; [reflexivity|]. split; [|vm_compute; reflexivity].
  apply list_elem_of_In. simpl. auto.
Qed.

(** ** Instances *)

(** Two observations of the bakery: the later one is kept. *)
Lemma dedupe_last_wins_witness :
  url_ok deal_bakery
  ∧ deal_bakery !! "url" = deal_bakery_again !! "url"
  ∧ dedupe [deal_bakery; deal_bakery_again] = Ok [deal_bakery_again].
Proof.
  assert (H : url_ok deal_bakery).
  { exists (VStr "https://a.example/1"). split; vm_compute; reflexivity. }
  assert (Hu : deal_bakery !! "url" = deal_bakery_again !! "url")
    by (vm_compute; reflexivity).
  split; [exact H|]. split; [exact Hu|].
  exact (proj2 (proj2 (dedupe_last_wins [deal_bakery; deal_bakery_again]))
           deal_bakery deal_bakery_again eq_refl H Hu).
Defined.

(** The bakery and the cafe, scored on 2026-01-01. *)
Lemma score_deals_augments_and_sorts_witness :
  ∃ out,
    score_deals sample_km 739617 sample_fromisoformat
      [deal_bakery; deal_cafe] sample_config = Ok out
    ∧ ∃ scored,
        Forall2 augmented [deal_bakery; deal_cafe] scored
        ∧ Permutation scored out
        ∧ StronglySorted by_score_desc out.
Proof.
  destruct (is_ok_Ok (score_deals sample_km 739617 sample_fromisoformat
                        [deal_bakery; deal_cafe] sample_config))
    as [out E]; [vm_compute; reflexivity|].
  exists out. split; [exact E|].
  exact (score_deals_augments_and_sorts sample_km 739617 sample_fromisoformat
           [deal_bakery; deal_cafe] sample_config out E).
Defined.

(** Both observations of the bakery score alike and keep their order. *)
Lemma score_deals_ranking_stable_witness :
  ∃ out,
    score_deals sample_km 739617 sample_fromisoformat
      [deal_bakery; deal_cafe; deal_bakery_again] sample_config = Ok out
    ∧ ∃ scored,
        Forall2 (scored_by sample_km 739617 sample_fromisoformat sample_config)
          [deal_bakery; deal_cafe; deal_bakery_again] scored
        ∧ StronglySorted by_score_desc out
        ∧ ∀ s, List.filter (same_score s) out
               = List.filter (same_score s) scored.
Proof.
  destruct (is_ok_Ok (score_deals sample_km 739617 sample_fromisoformat
                        [deal_bakery; deal_cafe; deal_bakery_again]
                        sample_config))
    as [out E]; [vm_compute; reflexivity|].
  exists out. split; [exact E|].
  exact (score_deals_ranking_stable sample_km 739617 sample_fromisoformat
           [deal_bakery; deal_cafe; deal_bakery_again] sample_config out E).
Defined.

(** The cafe has earnings and no price. *)
Lemma missing_price_full_credit_witness :
  ∃ out,
    score_deals sample_km 739617 sample_fromisoformat
      [deal_bakery; deal_cafe] sample_config = Ok out
    ∧ ∃ d2 pte x,
        d2 ∈ out
        ∧ scored_by sample_km 739617 sample_fromisoformat sample_config
            deal_cafe d2
        ∧ raw_pte deal_cafe = Ok pte ∧ (pte == 0)%Q
        ∧ feature d2 "price_to_ebitda" = Some x ∧ (x == 1)%Q.
Proof.
  destruct (is_ok_Ok (score_deals sample_km 739617 sample_fromisoformat
                        [deal_bakery; deal_cafe] sample_config))
    as [out E]; [vm_compute; reflexivity|].
  exists out. split; [exact E|].
  apply (missing_price_full_credit sample_km 739617 sample_fromisoformat
           [deal_bakery; deal_cafe] sample_config out deal_cafe (120000 # 1)).
  - exact E.
  - apply list_elem_of_In. right. left. reflexivity.
  - vm_compute; reflexivity.
  - vm_compute; reflexivity.
  - reflexivity.
Defined.

(** The cafe is listed on 2026-01-02 and scored on 2026-01-01. *)
Lemma future_listing_recency_above_one_witness :
  ∃ out,
    score_deals sample_km 739617 sample_fromisoformat
      [deal_bakery; deal_cafe] sample_config = Ok out
    ∧ ∃ d2 x,
        d2 ∈ out
        ∧ scored_by sample_km 739617 sample_fromisoformat sample_config
            deal_cafe d2
        ∧ feature d2 "recency" = Some x ∧ (1 < x)%Q.
Proof.
  destruct (is_ok_Ok (score_deals sample_km 739617 sample_fromisoformat
                        [deal_bakery; deal_cafe] sample_config))
    as [out E]; [vm_compute; reflexivity|].
  exists out. split; [exact E|].
  apply (future_listing_recency_above_one sample_km 739617
           sample_fromisoformat [deal_bakery; deal_cafe] sample_config out
           deal_cafe "2026-01-02" 739618).
  - exact E.
  - apply list_elem_of_In. right. left. reflexivity.
  - vm_compute; reflexivity.
  - reflexivity.
  - lia.
Defined.

(** A configuration without [hq_lat], and one without the [recency]
    weight, with one deal to score. *)
Lemma score_deals_incomplete_config_witness :
  (missing_field config_without_hq_lat
   ∧ ∃ k, score_deals sample_km 739617 sample_fromisoformat [deal_bakery]
            config_without_hq_lat = Raise (KeyError k))
  ∧ (missing_weight config_without_recency
     ∧ [deal_bakery] ≠ []
     ∧ ∃ e, score_deals sample_km 739617 sample_fromisoformat [deal_bakery]
              config_without_recency = Raise e).
Proof.
  assert (H1 : missing_field config_without_hq_lat).
  { right. right. left. reflexivity. }
  assert (H2 : missing_weight config_without_recency).
  { exists (delete "recency" sample_weights), "recency".
    split; [reflexivity|]. split; [|vm_compute; reflexivity].
    apply list_elem_of_In. simpl. auto. }
  assert (H3 : [deal_bakery] ≠ []) by discriminate.
  split.
  - split; [exact H1|].
    exact (proj1 (score_deals_incomplete_config sample_km 739617
                    sample_fromisoformat [deal_bakery] config_without_hq_lat)
                 H1).
  - split; [exact H2|]. split; [exact H3|].
    exact (proj2 (score_deals_incomplete_config sample_km 739617
                    sample_fromisoformat [deal_bakery] config_without_recency)
                 H2 H3).
Defined.


(** White space between marker and amount may be a no-break space. *)
Lemma nbsp_amount_found :
  field_of (normalize_hit (sample_hash 1) sample_repr "2026-01-01" hit_nbsp
              sample_source) "asking_price_aud"
  = Ok (Some (VNum (500000 # 1))).
Proof. vm_compute. reflexivity. Qed.

(** One link seen twice, under different titles and on different days. *)
Lemma normalize_hit_id_deterministic_witness :
  get hit_marked "link" = get hit_marked_again "link"
  ∧ sample_source !! "name" = sample_source !! "name"
  ∧ ∃ d1 d2,
      normalize_hit (sample_hash 1) sample_repr "2026-01-01" hit_marked
        sample_source = Ok d1
      ∧ normalize_hit (sample_hash 1) sample_repr "2026-01-02"
          hit_marked_again sample_source = Ok d2
      ∧ d1 !! "id" = d2 !! "id"
      ∧ ∃ name,
          sample_source !! "name" = Some name
          ∧ d1 !! "id" =
              Some (VStr (py_str sample_repr name +:+ "-"
                          +:+ pretty (Z.abs (sample_hash 1
                                               (get hit_marked "link"))
                                      mod 10000000))).
Proof.
  assert (Hlink : get hit_marked "link" = get hit_marked_again "link")
    by (vm_compute; reflexivity).
  split; [exact Hlink|]. split; [reflexivity|].
  destruct (is_ok_Ok (normalize_hit (sample_hash 1) sample_repr "2026-01-01"
                        hit_marked sample_source))
    as [d1 E1]; [vm_compute; reflexivity|].
  destruct (is_ok_Ok (normalize_hit (sample_hash 1) sample_repr "2026-01-02"
                        hit_marked_again sample_source))
    as [d2 E2]; [vm_compute; reflexivity|].
  exists d1, d2. split; [exact E1|]. split; [exact E2|].
  exact (normalize_hit_id_deterministic (sample_hash 1) sample_repr
           "2026-01-01" "2026-01-02" hit_marked hit_marked_again
           sample_source sample_source d1 d2 Hlink eq_refl E1 E2).
Defined.
(** * Further properties of the code *)

(** ** Characters and strings *)

Lemma lower_char_amount c : is_amount_char (lower_char c) = is_amount_char c.
Proof. by destruct c as [[] [] [] [] [] [] [] []]. Qed.

Lemma lower_char_fix c : is_amount_char c = true → lower_char c = c.
Proof. destruct c as [[] [] [] [] [] [] [] []]; vm_compute; congruence. Qed.

Lemma lower_char_idem c : lower_char (lower_char c) = lower_char c.
Proof. by destruct c as [[] [] [] [] [] [] [] []]. Qed.

Lemma lower_char_comma c : Ascii.eqb (lower_char c) "," = Ascii.eqb c ",".
Proof. by destruct c as [[] [] [] [] [] [] [] []]. Qed.

Lemma lower_char_blank c : Ascii.eqb (lower_char c) " " = Ascii.eqb c " ".
Proof. by destruct c as [[] [] [] [] [] [] [] []]. Qed.

Lemma amount_not_comma c : is_amount_char c = true → Ascii.eqb c "," = false.
Proof. destruct c as [[] [] [] [] [] [] [] []]; vm_compute; congruence. Qed.

Lemma amount_not_blank c : is_amount_char c = true → Ascii.eqb c " " = false.
Proof. destruct c as [[] [] [] [] [] [] [] []]; vm_compute; congruence. Qed.

Lemma amount_digit_or_dot c :
  is_amount_char c = true → is_digit c = false → c = "."%char.
Proof.
  unfold is_amount_char. intros H Hd. rewrite Hd in H. simpl in H.
  by apply Ascii.eqb_eq in H.
Qed.


Lemma digit_not_dot c : is_digit c = true → is_dot c = false.
Proof. destruct c as [[] [] [] [] [] [] [] []]; vm_compute; congruence. Qed.

Lemma lower_app s t : lower (s +:+ t) = lower s +:+ lower t.
Proof. induction s as [|c s IH]; simpl; [done|]. by rewrite IH. Qed.

Lemma remove_char_app c s t :
  remove_char c (s +:+ t) = remove_char c s +:+ remove_char c t.
Proof.
  induction s as [|a s IH]; simpl; [done|].
  destruct (Ascii.eqb a c); simpl; by rewrite IH.
Qed.

Lemma remove_char_idem c s : remove_char c (remove_char c s) = remove_char c s.
Proof.
  induction s as [|a s IH]; simpl; [done|].
  destruct (Ascii.eqb a c) eqn:E; simpl; [done|]. by rewrite E, IH.
Qed.

Lemma remove_char_comm c1 c2 s :
  remove_char c1 (remove_char c2 s) = remove_char c2 (remove_char c1 s).
Proof.
  induction s as [|a s IH]; simpl; [done|].
  destruct (Ascii.eqb a c2) eqn:E2, (Ascii.eqb a c1) eqn:E1; simpl;
    rewrite ?E1, ?E2, ?IH; done.
Qed.

Lemma lower_idem s : lower (lower s) = lower s.
Proof.
  induction s as [|a s IH]; simpl; [done|]. by rewrite lower_char_idem, IH.
Qed.

Lemma lower_remove_comma s :
  remove_char "," (lower s) = lower (remove_char "," s).
Proof.
  induction s as [|a s IH]; simpl; [done|].
  rewrite lower_char_comma. destruct (Ascii.eqb a ","); simpl; by rewrite IH.
Qed.

Lemma lower_remove_blank s :
  remove_char " " (lower s) = lower (remove_char " " s).
Proof.
  induction s as [|a s IH]; simpl; [done|].
  rewrite lower_char_blank. destruct (Ascii.eqb a " "); simpl; by rewrite IH.
Qed.

Lemma all_chars_remove p c s :
  all_chars p s = true → all_chars p (remove_char c s) = true.
Proof.
  induction s as [|a s IH]; simpl; [done|].
  intros H. apply andb_true_iff in H as [Ha Hs].
  destruct (Ascii.eqb a c); simpl; [auto|]. by rewrite Ha, IH.
Qed.

Lemma lower_no_amount s :
  all_chars (λ c, negb (is_amount_char c)) s = true →
  all_chars (λ c, negb (is_amount_char c)) (lower s) = true.
Proof.
  induction s as [|a s IH]; simpl; [done|].
  intros H. apply andb_true_iff in H as [Ha Hs].
  by rewrite lower_char_amount, Ha, IH.
Qed.

Lemma lower_amount_fix s : all_chars is_amount_char s = true → lower s = s.
Proof.
  induction s as [|a s IH]; simpl; [done|].
  intros H. apply andb_true_iff in H as [Ha Hs].
  by rewrite lower_char_fix, IH.
Qed.

Lemma remove_amount_fix c s :
  (∀ a, is_amount_char a = true → Ascii.eqb a c = false) →
  all_chars is_amount_char s = true → remove_char c s = s.
Proof.
  intros Hc. induction s as [|a s IH]; simpl; [done|].
  intros H. apply andb_true_iff in H as [Ha Hs].
  by rewrite (Hc a Ha), IH.
Qed.

(** The parser sees its argument only through this normal form. *)
Lemma norm_price_cleaned s :
  norm_price s =
  match search_amount (lower (remove_char " " (remove_char "," s))) with
  | None => Ok VNone
  | Some (g1, g2) =>
      x ← py_float g1;
      Ok (VNum (x * default 1%Q (unit_multipliers !! default "" g2)))
  end.
Proof. by destruct s. Qed.

Lemma search_amount_none s :
  all_chars (λ c, negb (is_amount_char c)) s = true → search_amount s = None.
Proof.
  induction s as [|a s IH]; simpl; [done|].
  intros H. apply andb_true_iff in H as [Ha Hs].
  apply negb_true_iff in Ha. rewrite Ha. by apply IH.
Qed.

Lemma search_amount_skip pre c t :
  all_chars (λ c, negb (is_amount_char c)) pre = true →
  search_amount (pre +:+ String c t) = search_amount (String c t).
Proof.
  induction pre as [|a pre IH]; [done|].
  intros H. simpl in H. apply andb_true_iff in H as [Ha Hs].
  apply negb_true_iff in Ha.
  change (String a pre +:+ String c t) with (String a (pre +:+ String c t)).
  cbn [search_amount]. rewrite Ha. by apply IH.
Qed.

(** X1.  Text without a digit or a dot has no price: the parser returns
    [None], in particular on the empty string. *)
Theorem norm_price_no_amount s :
  all_chars (λ c, negb (is_amount_char c)) s = true → norm_price s = Ok VNone.
Proof.
  intros H. rewrite norm_price_cleaned, search_amount_none; [done|].
  by apply lower_no_amount, all_chars_remove, all_chars_remove.
Qed.

(** X2.  Commas, blanks and the case of letters make no difference to the
    price parser. *)
Theorem norm_price_insensitive s :
  norm_price (remove_char "," s) = norm_price s
  ∧ norm_price (remove_char " " s) = norm_price s
  ∧ norm_price (lower s) = norm_price s.
Proof.
  rewrite !norm_price_cleaned. split; [|split].
  - by rewrite remove_char_idem.
  - by rewrite (remove_char_comm "," " "), remove_char_idem,
               (remove_char_comm " " ",").
  - by rewrite lower_remove_comma, lower_remove_blank, lower_idem.
Qed.

Lemma is_digit_bounds c :
  is_digit c = true → 0 <= Z.of_N (N_of_ascii c) - 48 <= 9.
Proof.
  unfold is_digit. intros H. apply andb_true_iff in H as [H1 H2].
  apply N.leb_le in H1, H2. lia.
Qed.

Lemma digits_value_nonneg s : ∀ acc,
  all_chars is_digit s = true → 0 <= acc → 0 <= digits_value acc s.
Proof.
  induction s as [|c s IH]; simpl; intros acc H Hacc; [done|].
  apply andb_true_iff in H as [Hc Hs].
  apply IH; [done|]. pose proof (is_digit_bounds c Hc). lia.
Qed.

Lemma py_float_nonneg s x : py_float s = Ok x → (0 <= x)%Q.
Proof.
  unfold py_float. destruct (span is_digit s) as [ip rest] eqn:Hs.
  destruct (span_spec _ _ _ _ Hs) as (_ & Hip & _).
  destruct rest as [|c fp].
  - destruct (String.eqb ip ""); [done|]. intros [= <-].
    unfold Qle. simpl. pose proof (digits_value_nonneg ip 0 Hip). lia.
  - destruct (_ && _) eqn:E; [|done]. intros [= <-].
    apply andb_true_iff in E as [E _]. apply andb_true_iff in E as [_ Hfp].
    unfold Qle. simpl.
    pose proof (digits_value_nonneg (ip +:+ fp) 0) as Hn.
    rewrite all_chars_app, Hip, Hfp in Hn. lia.
Qed.

Lemma py_float_error s e : py_float s = Raise e → e = ValueError.
Proof.
  unfold py_float. destruct (span is_digit s) as [ip [|c fp]].
  - destruct (String.eqb ip ""); congruence.
  - destruct (_ && _); congruence.
Qed.

Lemma unit_multiplier_cases k :
  unit_multipliers !! k = None
  ∨ unit_multipliers !! k = Some (inject_Z 1000)
  ∨ unit_multipliers !! k = Some (inject_Z 1000000).
Proof.
  unfold unit_multipliers.
  destruct (decide (k = "k")) as [->|Hk].
  { right. left. apply lookup_insert_eq. }
  rewrite lookup_insert_ne by done.
  destruct (decide (k = "m")) as [->|Hm].
  { right. right. apply lookup_insert_eq. }
  rewrite lookup_insert_ne by done. by left.
Qed.

Lemma norm_price_cases s :
  norm_price s = Ok VNone
  ∨ (∃ q, norm_price s = Ok (VNum q) ∧ (0 <= q)%Q)
  ∨ norm_price s = Raise ValueError.
Proof.
  rewrite norm_price_cleaned.
  destruct (search_amount _) as [[g1 g2]|]; [|by left].
  destruct (py_float g1) as [x|e] eqn:E; simpl.
  - right. left. eexists. split; [done|].
    apply py_float_nonneg in E.
    destruct (unit_multiplier_cases (default "" g2)) as [-> | [-> | ->]]; simpl.
    + rewrite Qmult_1_r. done.
    + apply Qmult_le_0_compat; done.
    + apply Qmult_le_0_compat; done.
  - right. right. by rewrite (py_float_error _ _ E).
Qed.

(** X3.  The price parser has three outcomes: no price, a number that is
    not negative, or a [ValueError]. *)
Theorem norm_price_outcomes s :
  norm_price s = Ok VNone
  ∨ (∃ q, norm_price s = Ok (VNum q) ∧ (0 <= q)%Q)
  ∨ norm_price s = Raise ValueError.
Proof. apply norm_price_cases. Qed.

Lemma unit_of_multiplier u post :
  is_amount_char u = false →
  default 1%Q
    (unit_multipliers !!
       default ""
         (if Ascii.eqb (lower_char u) "m" || Ascii.eqb (lower_char u) "k"
          then Some (String (lower_char u) EmptyString) else None))
  = unit_of (String u post).
Proof.
  intros _. unfold unit_of.
  destruct (Ascii.eqb (lower_char u) "m") eqn:Em.
  { apply Ascii.eqb_eq in Em. rewrite Em. reflexivity. }
  destruct (Ascii.eqb (lower_char u) "k") eqn:Ek.
  { apply Ascii.eqb_eq in Ek. rewrite Ek. reflexivity. }
  reflexivity.
Qed.

(** An amount between a prefix without digits and dots and a tail that
    ends it is what the regular expression captures. *)
Lemma norm_price_decomposed pre num tail :
  all_chars (λ c, negb (is_amount_char c)) pre = true →
  all_chars is_amount_char num = true → num ≠ "" →
  ends_amount tail = true →
  norm_price (pre +:+ num +:+ tail)
  = (x ← py_float num; Ok (VNum (x * unit_of tail))).
Proof.
  intros Hpre Hnum Hne Htail.
  rewrite norm_price_cleaned.
  rewrite !remove_char_app, !lower_app.
  rewrite (remove_amount_fix "," num amount_not_comma Hnum).
  rewrite (remove_amount_fix " " num amount_not_blank Hnum).
  rewrite (lower_amount_fix num Hnum).
  destruct num as [|c num]; [done|].
  rewrite append_cons.
  rewrite search_amount_skip
    by by apply lower_no_amount, all_chars_remove, all_chars_remove.
  simpl in Hnum. apply andb_true_iff in Hnum as [Hc Hnum'].
  cbn [search_amount]. rewrite Hc.
  destruct tail as [|u post].
  - cbn [remove_char lower]. rewrite <- append_cons.
    rewrite (span_all_app is_amount_char (String c num) "");
      [|by simpl; rewrite Hc | done].
    reflexivity.
  - simpl in Htail. apply andb_true_iff in Htail as [Htail Hblank].
    apply andb_true_iff in Htail as [Hu Hcomma].
    apply negb_true_iff in Hu, Hcomma, Hblank.
    cbn [remove_char]. rewrite Hcomma. cbn [remove_char]. rewrite Hblank.
    cbn [lower]. rewrite <- append_cons.
    rewrite (span_all_app is_amount_char (String c num));
      [|by simpl; rewrite Hc | by rewrite lower_char_amount].
    rewrite (unit_of_multiplier u post Hu). reflexivity.
Qed.





Lemma count_chars_app p s t :
  count_chars p (s +:+ t) = (count_chars p s + count_chars p t)%nat.
Proof.
  induction s as [|a s IH]; simpl; [done|]. rewrite IH. lia.
Qed.

Lemma count_digits_all s :
  all_chars is_digit s = true →
  count_chars is_digit s = String.length s ∧ count_chars is_dot s = 0%nat.
Proof.
  induction s as [|a s IH]; simpl; [done|].
  intros H. apply andb_true_iff in H as [Ha Hs].
  destruct (IH Hs) as [-> ->]. by rewrite Ha, (digit_not_dot a Ha).
Qed.

Lemma amount_no_dot_digits s :
  all_chars is_amount_char s = true → count_chars is_dot s = 0%nat →
  all_chars is_digit s = true.
Proof.
  induction s as [|a s IH]; simpl; [done|].
  intros H Hd. apply andb_true_iff in H as [Ha Hs].
  destruct (is_digit a) eqn:E.
  - simpl. apply IH; [done|]. lia.
  - rewrite (amount_digit_or_dot a Ha E) in Hd. simpl in Hd. lia.
Qed.

(** [float] accepts a run of digits and dots when it has a digit and at
    most one dot. *)
Lemma py_float_ok_iff g :
  all_chars is_amount_char g = true →
  is_ok (py_float g) = true
  ↔ (1 <= count_chars is_digit g)%nat ∧ (count_chars is_dot g <= 1)%nat.
Proof.
  intros Hg. unfold py_float.
  destruct (span is_digit g) as [ip rest] eqn:Hs.
  destruct (span_spec _ _ _ _ Hs) as (-> & Hip & Hrest).
  rewrite all_chars_app in Hg. apply andb_true_iff in Hg as [_ Hg].
  rewrite !count_chars_app.
  destruct (count_digits_all ip Hip) as [-> ->].
  destruct rest as [|c fp].
  - simpl. destruct ip; simpl; split; intros H; try done; lia.
  - simpl in Hg. apply andb_true_iff in Hg as [Hc Hfp].
    rewrite (amount_digit_or_dot c Hc Hrest). simpl.
    destruct (all_chars is_digit fp) eqn:Efp.
    + destruct (count_digits_all fp Efp) as [-> ->].
      destruct ip, fp; simpl; split; intros H; try done; lia.
    + simpl. split; [done|]. intros [_ H].
      assert (count_chars is_dot fp = 0%nat) as H0 by lia.
      by rewrite (amount_no_dot_digits fp Hfp H0) in Efp.
Qed.

(** X5.  The price parser raises exactly when the first run of digits and
    dots in the text is not a number: when it holds no digit, or more than
    one dot. *)
Theorem norm_price_raises_iff pre num tail :
  all_chars (λ c, negb (is_amount_char c)) pre = true →
  all_chars is_amount_char num = true → num ≠ "" →
  ends_amount tail = true →
  norm_price (pre +:+ num +:+ tail) = Raise ValueError
  ↔ count_chars is_digit num = 0%nat ∨ (2 <= count_chars is_dot num)%nat.
Proof.
  intros Hpre Hnum Hne Htail.
  rewrite norm_price_decomposed by done.
  pose proof (py_float_ok_iff num Hnum) as Hok.
  destruct (py_float num) as [x|e] eqn:E; simpl in *.
  - split; [done|]. intros H. destruct Hok as [Hok _].
    specialize (Hok eq_refl). lia.
  - rewrite (py_float_error _ _ E). split; [|done]. intros _.
    destruct (decide (1 <= count_chars is_digit num)%nat);
      destruct (decide (count_chars is_dot num <= 1)%nat); lia.
Qed.

(** ** De-duplication *)

Lemma forallb_filter_nil {A} (f : A → bool) l :
  forallb (λ x, negb (f x)) l = true → List.filter f l = [].
Proof.
  induction l as [|x l IH]; simpl; [done|].
  intros H. apply andb_true_iff in H as [Hx Hl].
  apply negb_true_iff in Hx. rewrite Hx. by apply IH.
Qed.

Lemma filter_nil_forallb {A} (f : A → bool) l :
  length (List.filter f l) = 0%nat → forallb (λ x, negb (f x)) l = true.
Proof.
  induction l as [|x l IH]; simpl; [done|].
  destruct (f x); simpl; [done|]. apply IH.
Qed.

Lemma od_inv_unique m : od_inv m → url_unique (map snd m).
Proof.
  induction m as [|[k d] m IH]; intros [Hnd Hall] u; simpl; [lia|].
  destruct Hnd as [Hk Hnd]. simpl in Hk.
  inversion Hall as [|? ? [Hp Hh] Hall']; subst. simpl in Hp.
  destruct (has_url u d) eqn:E.
  - assert (Hku : key_eqb k u = true).
    { unfold has_url in *. destruct (d !! "url") as [v|]; [|done].
      apply key_eqb_trans with v; [by rewrite key_eqb_sym | done]. }
    rewrite (od_mem_equiv k u m Hku) in Hk.
    rewrite (forallb_filter_nil _ _ (od_inv_foreign u m Hall' Hk)).
    simpl. lia.
  - apply IH. by split.
Qed.

Lemma dedupe_loop_ok deals : ∀ m m',
  dedupe_loop deals m = Ok m' → Forall url_ok deals.
Proof.
  induction deals as [|d rest IH]; simpl; intros m m' H; [constructor|].
  inv_bind H. apply getitem_Ok in Ha.
  destruct (hashable a) eqn:Hh; [|done].
  constructor; [by exists a | by eapply IH].
Qed.

Lemma od_set_length k v m :
  (length m <= length (od_set k v m) <= S (length m))%nat
  ∧ (1 <= length (od_set k v m))%nat.
Proof.
  induction m as [|[k' v'] m IH]; simpl; [lia|].
  destruct (key_eqb k' k); simpl; lia.
Qed.

Lemma dedupe_loop_length deals : ∀ m m',
  dedupe_loop deals m = Ok m' →
  (length m <= length m' <= length m + length deals)%nat.
Proof.
  induction deals as [|d rest IH]; simpl; intros m m' H.
  - injection H as <-. lia.
  - inv_bind H. destruct (hashable a); [|done].
    apply IH in H. pose proof (od_set_length a d m). lia.
Qed.

(** X6.  De-duplication succeeds exactly on lists whose deals all carry a
    hashable url; a deal without the [url] key, or with an unhashable one,
    makes it raise. *)
Theorem dedupe_ok_iff deals :
  is_ok (dedupe deals) = true ↔ Forall url_ok deals.
Proof.
  unfold dedupe. split.
  - destruct (dedupe_loop deals []) as [m|e] eqn:E; [|done].
    intros _. by eapply dedupe_loop_ok.
  - intros H. by destruct (dedupe_loop_total deals [] H) as [m ->].
Qed.

(** X7.  The de-duplicated list holds no url twice. *)
Theorem dedupe_url_unique deals out :
  dedupe deals = Ok out → url_unique out.
Proof.
  unfold dedupe. intros H. inv_bind H. injection H as <-.
  apply od_inv_unique.
  assert (Hinv0 : od_inv []) by (split; [exact I | constructor]).
  by destruct (dedupe_loop_spec _ _ _ Ha Hinv0) as (Hinv & _).
Qed.

(** X8.  De-duplication never lengthens the list, and it keeps at least
    one deal of a list that is not empty. *)
Theorem dedupe_length deals out :
  dedupe deals = Ok out →
  (length out <= length deals)%nat ∧ (deals ≠ [] → out ≠ []).
Proof.
  unfold dedupe. intros H. inv_bind H. injection H as <-.
  rewrite length_map. split.
  - apply dedupe_loop_length in Ha. simpl in Ha. lia.
  - destruct deals as [|d rest]; [done|]. intros _. simpl in Ha.
    inv_bind Ha. destruct (hashable a0); [|done].
    apply dedupe_loop_length in Ha.
    pose proof (od_set_length a0 d []). destruct a; simpl in *; [lia|done].
Qed.

Lemma url_unique_tail d l : url_unique (d :: l) → url_unique l.
Proof.
  intros H u. specialize (H u). simpl in H.
  destruct (has_url u d); simpl in H; lia.
Qed.

Lemma url_unique_inv l :
  Forall url_ok l → url_unique l →
  od_inv (map (λ d : dict, (get d "url", d)) l).
Proof.
  induction l as [|d l IH]; intros Hok Hu.
  - split; [exact I | constructor].
  - inversion Hok as [|? ? (v & Hv & Hh) Hok']; subst.
    destruct (IH Hok' (url_unique_tail _ _ Hu)) as [Hnd Hall].
    assert (Hg : get d "url" = v) by (unfold get; by rewrite Hv).
    assert (Hd : has_url v d = true).
    { unfold has_url. rewrite Hv. by apply key_eqb_refl. }
    split; simpl.
    + split; [|done]. rewrite Hg.
      specialize (Hu v). simpl in Hu. rewrite Hd in Hu. simpl in Hu.
      assert (H0 : length (List.filter (has_url v) l) = 0%nat) by lia.
      apply filter_nil_forallb in H0. clear -H0 Hok'.
      induction Hok' as [|x l (w & Hw & _) _ IHl]; simpl in *; [done|].
      apply andb_true_iff in H0 as [Hx Hl]. apply negb_true_iff in Hx.
      rewrite (IHl Hl), orb_false_r.
      unfold has_url in Hx. unfold get. by rewrite Hw in *.
    + constructor; [|done]. simpl. by rewrite Hg.
Qed.

(** X9.  On deals that carry urls, de-duplication is the identity exactly
    when no url occurs twice; the order of the deals is kept. *)
Theorem dedupe_identity_iff l :
  Forall url_ok l → (dedupe l = Ok l ↔ url_unique l).
Proof.
  intros Hok. split.
  - unfold dedupe. intros H. inv_bind H. injection H as H.
    rewrite <- H. apply od_inv_unique.
    assert (Hinv0 : od_inv []) by (split; [exact I | constructor]).
    by destruct (dedupe_loop_spec _ _ _ Ha Hinv0) as (Hinv & _).
  - intros Hu.
    pose proof (url_unique_inv l Hok Hu) as Hinv.
    destruct (dedupe_loop_values _ [] Hinv) as (r & Hr & Hs).
    { apply Forall_forall. done. }
    rewrite map_map, map_id in Hr, Hs. simpl in Hs.
    unfold dedupe. rewrite Hr. simpl. by rewrite Hs.
Qed.

(** ** Scoring *)

Lemma round_half_even_upper k x :
  (x <= inject_Z k)%Q → (round_half_even x <= k)%Z.
Proof.
  intros H. unfold Qle in H. simpl in H. unfold round_half_even.
  set (n := Qnum x) in *. set (d := Zpos (Qden x)) in *.
  assert (Hd : 0 < d) by (unfold d; lia).
  assert (Hn : n <= k * d) by lia.
  pose proof (Z.div_mod n d ltac:(lia)) as Hdm.
  pose proof (Z.mod_pos_bound n d Hd) as Hm.
  assert (Hf : n / d <= k).
  { apply Z.div_le_upper_bound; lia. }
  destruct (Z.eq_dec (n / d) k) as [Heq|Hne].
  - assert (n mod d = 0) by nia.
    replace (2 * (n mod d) ?= d) with Lt; [lia|].
    symmetry. apply Z.compare_lt_iff. lia.
  - destruct (2 * (n mod d) ?= d); [destruct (Z.even _)|..]; lia.
Qed.

Lemma round3_nonneg x : (0 <= x)%Q → (0 <= round3 x)%Q.
Proof.
  intros H. unfold round3.
  assert (0 <= round_half_even (x * inject_Z 1000))%Z.
  { apply round_half_even_lower. unfold Qle in *. simpl in *. lia. }
  unfold Qle. simpl. lia.
Qed.

Lemma round3_le_one x : (x <= 1)%Q → (round3 x <= 1)%Q.
Proof.
  intros H. unfold round3.
  assert (round_half_even (x * inject_Z 1000) <= 1000)%Z.
  { apply round_half_even_upper. unfold Qle in *. simpl in *. lia. }
  unfold Qle. simpl. lia.
Qed.

Lemma round3_zero x : (x == 0)%Q → (round3 x == 0)%Q.
Proof.
  intros H. unfold round3.
  rewrite (round_half_even_int 0); [reflexivity|].
  rewrite H. reflexivity.
Qed.

Lemma round3_one_eq x : (x == 1)%Q → (round3 x == 1)%Q.
Proof. intros H. by rewrite (round3_one x H). Qed.

Lemma round3_half : (round3 (1 # 2) == 1 # 2)%Q.
Proof. reflexivity. Qed.

Lemma f_margin_bounds m : (0 <= f_margin m <= 1)%Q.
Proof.
  unfold f_margin. split.
  - apply Q.min_glb; [apply Q.le_max_r | done].
  - apply Q.le_min_r.
Qed.

Lemma f_pte_nonneg p : (0 <= f_pte p)%Q.
Proof.
  unfold f_pte.
  pose proof (Q.le_min_r (p / inject_Z 5) 1) as H.
  unfold Qminus. rewrite <- (Qplus_opp_r (Qmin (p / inject_Z 5) 1)).
  by apply Qplus_le_l.
Qed.

Lemma f_pte_le_one p : (0 <= p)%Q → (f_pte p <= 1)%Q.
Proof.
  intros Hp. unfold f_pte.
  assert (H : (0 <= Qmin (p / inject_Z 5) 1)%Q).
  { apply Q.min_glb; [|done].
    unfold Qle, Qdiv, Qmult, Qinv, inject_Z in *. simpl in *. lia. }
  unfold Qle, Qminus, Qplus, Qopp in *. simpl in *. lia.
Qed.

Lemma f_recent_nonneg n : (0 <= f_recent n)%Q.
Proof. unfold f_recent. apply Q.le_max_l. Qed.

Lemma f_recent_le_one n : 0 <= n → (f_recent n <= 1)%Q.
Proof.
  intros H. unfold f_recent. apply Q.max_lub; [done|].
  unfold Qle, Qminus, Qdiv, Qplus, Qopp, Qmult, Qinv, inject_Z. simpl. lia.
Qed.

Lemma f_recent_old n : 30 <= n → (f_recent n == 0)%Q.
Proof.
  intros H. unfold f_recent. apply Q.max_l.
  unfold Qle, Qminus, Qdiv, Qplus, Qopp, Qmult, Qinv, inject_Z. simpl. lia.
Qed.

Lemma f_recent_today : (f_recent 0 == 1)%Q.
Proof. reflexivity. Qed.

Lemma f_freehold_cases d ff :
  f_freehold d = Ok ff → ff = 1%Q ∨ ff = (3 # 10)%Q.
Proof.
  unfold f_freehold. intros H. inv_bind H. injection H as <-.
  destruct (String.eqb a "freehold"); auto.
Qed.

Lemma f_cat_cases d target fc :
  f_cat d target = Ok fc → fc = 1%Q ∨ fc = (1 # 2)%Q.
Proof.
  unfold f_cat. destruct (get d "category") as [|s| |]; [| |  |done].
  - intros [= <-]; auto.
  - destruct (bool_decide _); intros [= <-]; auto.
  - intros [= <-]; auto.
Qed.

Lemma features_elem fm fp fr ff fc fd k x :
  features fm fp fr ff fc fd !! k = Some x →
  (k = "margin" ∧ x = round3 fm)
  ∨ (k = "price_to_ebitda" ∧ x = round3 fp)
  ∨ (k = "recency" ∧ x = round3 fr)
  ∨ (k = "freehold" ∧ x = ff)
  ∨ (k = "category" ∧ x = fc)
  ∨ (k = "proximity" ∧ x = round3 fd).
Proof.
  unfold features. intros H. apply elem_of_list_to_map_2 in H.
  repeat (apply elem_of_cons in H as [[= -> ->]|H]; [tauto|]).
  by apply elem_of_nil in H.
Qed.

Lemma features_lookup_margin fm fp fr ff fc fd :
  features fm fp fr ff fc fd !! "margin" = Some (round3 fm).
Proof. unfold features. simpl. by rewrite lookup_insert_eq. Qed.

Lemma features_lookup_proximity fm fp fr ff fc fd :
  features fm fp fr ff fc fd !! "proximity" = Some (round3 fd).
Proof.
  unfold features. simpl.
  by rewrite !lookup_insert_ne, !lookup_insert_eq by done.
Qed.

Section ScoringFurther.

Variable km : Q → Q → Q → Q → res Q.
Variable today : Z.
Variable fromisoformat : string → option Z.

(** All the parts of a scored deal. *)
Lemma score_deal_parts w target hq_lat hq_lon maxd d d2 :
  score_deal km today fromisoformat w target hq_lat hq_lon maxd d = Ok d2 →
  ∃ margin pte ff fc fd score,
    raw_margin d = Ok margin
    ∧ raw_pte d = Ok pte
    ∧ f_freehold d = Ok ff
    ∧ f_cat d target = Ok fc
    ∧ f_dist km hq_lat hq_lon maxd d = Ok fd
    ∧ weighted w (f_margin margin) (f_pte pte)
        (f_recent (days_listed today fromisoformat d)) ff fc fd = Ok score
    ∧ d2 = <["features" :=
               VFeat (features (f_margin margin) (f_pte pte)
                        (f_recent (days_listed today fromisoformat d))
                        ff fc fd)]>
             (<["score" := VNum (round3 score)]> d).
Proof.
  unfold score_deal. intros H.
  inv_bind H. rename a into margin, Ha into Hm.
  inv_bind H. rename a into pte, Ha into Hp.
  inv_bind H. rename a into ff, Ha into Hff.
  inv_bind H. rename a into fc, Ha into Hfc.
  inv_bind H. rename a into fd, Ha into Hfd.
  inv_bind H. rename a into score, Ha into Hs.
  injection H as <-.
  by exists margin, pte, ff, fc, fd, score.
Qed.

(** Every deal of the output is the scored form of a deal of the input. *)
Lemma score_deals_elem_out deals cfg out d2 :
  score_deals km today fromisoformat deals cfg = Ok out → d2 ∈ out →
  ∃ d, d ∈ deals ∧ scored_by km today fromisoformat cfg d d2.
Proof.
  intros H Hd2. apply score_deals_inv in H
    as (w & target & hq_lat & hq_lon & maxd & scored & Hw & Ht & Hla & Hlo
        & Hm & Hall & ->).
  rewrite sort_desc_perm in Hd2.
  apply list_elem_of_lookup in Hd2 as [i Hi].
  destruct (Forall2_lookup_r _ _ _ _ _ Hall Hi) as (d & Hid & Hd).
  exists d. split.
  - apply list_elem_of_lookup. eauto.
  - by exists w, target, hq_lat, hq_lon, maxd.
Qed.

Lemma f_dist_nonneg hq_lat hq_lon maxd d fd :
  f_dist km hq_lat hq_lon maxd d = Ok fd → (0 <= fd)%Q.
Proof.
  unfold f_dist. destruct (_ && _).
  - intros H. inv_bind H. inv_bind H. inv_bind H.
    destruct (Qeq_bool maxd 0); [done|]. injection H as <-.
    apply Q.le_max_l.
  - by intros [= <-].
Qed.

(** X10.  Whatever the deal and the configuration, no feature of a scored
    deal is negative, and the margin, freehold and category features are
    at most 1. *)
Theorem features_lower_bounds deals cfg out d2 k x :
  score_deals km today fromisoformat deals cfg = Ok out →
  d2 ∈ out → feature d2 k = Some x →
  (0 <= x)%Q
  ∧ (k = "margin" ∨ k = "freehold" ∨ k = "category" → (x <= 1)%Q).
Proof.
  intros H Hd2 Hx.
  destruct (score_deals_elem_out _ _ _ _ H Hd2)
    as (d & _ & w & target & hq_lat & hq_lon & maxd & _ & _ & _ & _ & _ & Hd).
  apply score_deal_parts in Hd
    as (margin & pte & ff & fc & fd & score & _ & _ & Hff & Hfc & Hfd & _ & ->).
  unfold feature in Hx. rewrite lookup_insert_eq in Hx.
  pose proof (f_margin_bounds margin) as [Hm0 Hm1].
  apply f_freehold_cases in Hff. apply f_cat_cases in Hfc.
  apply f_dist_nonneg in Hfd.
  apply features_elem in Hx
    as [[-> ->]|[[-> ->]|[[-> ->]|[[-> ->]|[[-> ->]|[-> ->]]]]]].
  - split; [by apply round3_nonneg | intros _; by apply round3_le_one].
  - split; [apply round3_nonneg, f_pte_nonneg | intros [?|[?|?]]; done].
  - split; [apply round3_nonneg, f_recent_nonneg | intros [?|[?|?]]; done].
  - destruct Hff as [-> | ->]; done.
  - destruct Hfc as [-> | ->]; done.
  - split; [by apply round3_nonneg | intros [?|[?|?]]; done].
Qed.

Lemma days_listed_nonneg d :
  (∀ s listed, d !! "date_listed" = Some (VStr s) →
     fromisoformat s = Some listed → listed <= today) →
  0 <= days_listed today fromisoformat d.
Proof.
  intros H. unfold days_listed, getitem.
  destruct (d !! "date_listed") as [[|s| |]|] eqn:E; simpl; try lia.
  destruct (fromisoformat s) as [listed|] eqn:Es; simpl; [|lia].
  specialize (H s listed eq_refl Es). lia.
Qed.

Lemma price_nonneg d p :
  (∀ q, d !! "asking_price_aud" = Some (VNum q) → (0 <= q)%Q) →
  as_num (py_or (get d "asking_price_aud") (VNum 0)) = Ok p → (0 <= p)%Q.
Proof.
  intros H. unfold get, py_or.
  destruct (d !! "asking_price_aud") as [[|s|q|f]|] eqn:E; simpl.
  - by intros [= <-].
  - destruct (negb _); simpl; [done | by intros [= <-]].
  - destruct (negb _); intros [= <-]; [by apply H | done].
  - destruct (negb _); simpl; [done | by intros [= <-]].
  - by intros [= <-].
Qed.

Lemma Qdiv_nonneg a b : (0 <= a)%Q → (0 < b)%Q → (0 <= a / b)%Q.
Proof.
  intros Ha Hb. unfold Qdiv. apply Qmult_le_0_compat; [done|].
  apply Qinv_le_0_compat. by apply Qlt_le_weak.
Qed.

Lemma raw_pte_nonneg d pte :
  (∀ q, d !! "asking_price_aud" = Some (VNum q) → (0 <= q)%Q) →
  raw_pte d = Ok pte → (0 <= pte)%Q.
Proof.
  intros Hp. unfold raw_pte. intros H. inv_bind H.
  destruct (Qlt_bool 0 a) eqn:E.
  - inv_bind H. injection H as <-.
    apply Qdiv_nonneg; [by eapply price_nonneg | by apply Qlt_bool_iff].
  - by injection H as <-.
Qed.

Lemma one_minus_le_one y : (0 <= y)%Q → (1 - y <= 1)%Q.
Proof. unfold Qle, Qminus, Qplus, Qopp. simpl. lia. Qed.

Lemma f_dist_le_one hq_lat hq_lon maxd d fd :
  (0 < maxd)%Q →
  (∀ a b c e x, km a b c e = Ok x → (0 <= x)%Q) →
  f_dist km hq_lat hq_lon maxd d = Ok fd → (fd <= 1)%Q.
Proof.
  intros Hmax Hkm. unfold f_dist. destruct (_ && _).
  - intros H. inv_bind H. inv_bind H. inv_bind H.
    destruct (Qeq_bool maxd 0); [done|]. injection H as <-.
    apply Q.max_lub; [done|]. apply one_minus_le_one.
    apply Qdiv_nonneg; [by eapply Hkm | done].
  - by intros [= <-].
Qed.

(** X11.  A deal whose listing date is not after today and whose asking
    price is not negative, scored against a positive full-points distance
    with a distance function that is never negative, has all its features
    between 0 and 1. *)
Theorem features_within_unit cfg d d2 maxd k x :
  scored_by km today fromisoformat cfg d d2 →
  (∀ s listed, d !! "date_listed" = Some (VStr s) →
     fromisoformat s = Some listed → listed <= today) →
  (∀ q, d !! "asking_price_aud" = Some (VNum q) → (0 <= q)%Q) →
  cfg_max_distance_km_for_full_points cfg = Some maxd → (0 < maxd)%Q →
  (∀ a b c e y, km a b c e = Ok y → (0 <= y)%Q) →
  feature d2 k = Some x →
  (0 <= x <= 1)%Q.
Proof.
  intros (w & target & hq_lat & hq_lon & maxd' & _ & _ & _ & _ & Hm & Hd)
         Hdate Hprice Hmaxd Hpos Hkm Hx.
  assert (maxd' = maxd) as -> by congruence.
  apply score_deal_parts in Hd
    as (margin & pte & ff & fc & fd & score & _ & Hpte & Hff & Hfc & Hfd & _
        & ->).
  unfold feature in Hx. rewrite lookup_insert_eq in Hx.
  pose proof (f_margin_bounds margin) as [Hm0 Hm1].
  apply f_freehold_cases in Hff. apply f_cat_cases in Hfc.
  pose proof (f_dist_nonneg _ _ _ _ _ Hfd) as Hfd0.
  pose proof (f_dist_le_one _ _ _ _ _ Hpos Hkm Hfd) as Hfd1.
  pose proof (raw_pte_nonneg _ _ Hprice Hpte) as Hpte0.
  pose proof (days_listed_nonneg _ Hdate) as Hdays.
  apply features_elem in Hx
    as [[-> ->]|[[-> ->]|[[-> ->]|[[-> ->]|[[-> ->]|[-> ->]]]]]].
  - split; [by apply round3_nonneg | by apply round3_le_one].
  - split; [apply round3_nonneg, f_pte_nonneg
           | by apply round3_le_one, f_pte_le_one].
  - split; [apply round3_nonneg, f_recent_nonneg
           | by apply round3_le_one, f_recent_le_one].
  - destruct Hff as [-> | ->]; done.
  - destruct Hfc as [-> | ->]; done.
  - split; [by apply round3_nonneg | by apply round3_le_one].
Qed.

Lemma Qplus_nonneg a b : (0 <= a)%Q → (0 <= b)%Q → (0 <= a + b)%Q.
Proof.
  intros Ha Hb. apply Qle_trans with (0 + 0)%Q; [done|].
  by apply Qplus_le_compat.
Qed.

Lemma weighted_nonneg w fm fp fr ff fc fd score :
  (∀ k y, w !! k = Some y → (0 <= y)%Q) →
  (0 <= fm)%Q → (0 <= fp)%Q → (0 <= fr)%Q →
  (0 <= ff)%Q → (0 <= fc)%Q → (0 <= fd)%Q →
  weighted w fm fp fr ff fc fd = Ok score → (0 <= score)%Q.
Proof.
  intros Hw H1 H2 H3 H4 H5 H6. unfold weighted. intros H.
  inv_bind H. apply getitem_Ok, Hw in Ha.
  inv_bind H. apply getitem_Ok, Hw in Ha0.
  inv_bind H. apply getitem_Ok, Hw in Ha1.
  inv_bind H. apply getitem_Ok, Hw in Ha2.
  inv_bind H. apply getitem_Ok, Hw in Ha3.
  inv_bind H. apply getitem_Ok, Hw in Ha4.
  injection H as <-.
  repeat apply Qplus_nonneg; by apply Qmult_le_0_compat.
Qed.

(** X12.  With weights that are not negative, the score of every returned
    deal is not negative. *)
Theorem score_nonneg deals cfg out w d2 :
  score_deals km today fromisoformat deals cfg = Ok out →
  cfg_weights cfg = Some w →
  (∀ k y, w !! k = Some y → (0 <= y)%Q) →
  d2 ∈ out →
  ∃ s, d2 !! "score" = Some (VNum s) ∧ (0 <= s)%Q.
Proof.
  intros H Hw Hpos Hd2.
  destruct (score_deals_elem_out _ _ _ _ H Hd2)
    as (d & _ & w' & target & hq_lat & hq_lon & maxd & Hw' & _ & _ & _ & _
        & Hd).
  assert (w' = w) as -> by congruence.
  apply score_deal_parts in Hd
    as (margin & pte & ff & fc & fd & score & _ & _ & Hff & Hfc & Hfd & Hs
        & ->).
  exists (round3 score). split.
  { by rewrite lookup_insert_ne, lookup_insert_eq by done. }
  apply round3_nonneg.
  apply (weighted_nonneg _ _ _ _ _ _ _ _ Hpos) in Hs; try done.
  - by destruct (f_margin_bounds margin).
  - apply f_pte_nonneg.
  - apply f_recent_nonneg.
  - apply f_freehold_cases in Hff as [-> | ->]; done.
  - apply f_cat_cases in Hfc as [-> | ->]; done.
  - by eapply f_dist_nonneg.
Qed.

Lemma days_listed_unreadable d :
  date_unreadable fromisoformat d → days_listed today fromisoformat d = 30.
Proof.
  unfold date_unreadable, days_listed, getitem.
  destruct (d !! "date_listed") as [[|s| |]|]; simpl; try done.
  by intros ->.
Qed.

(** X13.  The recency feature at its ends: 0 for a deal whose date cannot
    be read and for a deal listed thirty days ago or earlier, 1 for a deal
    listed today. *)
Theorem recency_edges cfg d d2 :
  scored_by km today fromisoformat cfg d d2 →
  ∃ x, feature d2 "recency" = Some x
    ∧ (date_unreadable fromisoformat d → (x == 0)%Q)
    ∧ (∀ s listed, d !! "date_listed" = Some (VStr s) →
         fromisoformat s = Some listed →
         (listed + 30 <= today → (x == 0)%Q)
         ∧ (listed = today → (x == 1)%Q)).
Proof.
  intros (w & target & hq_lat & hq_lon & maxd & _ & _ & _ & _ & _ & Hd).
  apply score_deal_parts in Hd
    as (margin & pte & ff & fc & fd & score & _ & _ & _ & _ & _ & _ & ->).
  eexists. split; [|split].
  - unfold feature. rewrite lookup_insert_eq. apply features_lookup_recency.
  - intros Hu. rewrite (days_listed_unreadable d Hu).
    apply round3_zero. by apply f_recent_old.
  - intros s listed Hs Hl.
    rewrite (days_listed_future _ _ _ _ _ Hs Hl). split.
    + intros Hold. apply round3_zero, f_recent_old. lia.
    + intros ->. rewrite Z.sub_diag. apply round3_one_eq, f_recent_today.
Qed.

Lemma raw_pte_no_earnings d :
  get d "ebitda_aud" = VNone
  ∨ (∃ e, get d "ebitda_aud" = VNum e ∧ (e <= 0)%Q) →
  raw_pte d = Ok (inject_Z 99).
Proof.
  unfold raw_pte. intros [->|(e & -> & He)]; [done|].
  unfold py_or. simpl. destruct (Qeq_bool e 0) eqn:E; simpl; [done|].
  destruct (Qlt_bool 0 e) eqn:El; [|done].
  apply Qlt_bool_iff in El. by apply Qlt_not_le in El.
Qed.

(** X14.  A deal without positive earnings (none recorded, zero, or a
    loss) gets no credit for its price: its [price_to_ebitda] feature is
    0, whatever the asking price. *)
Theorem no_earnings_no_price_credit cfg d d2 :
  scored_by km today fromisoformat cfg d d2 →
  get d "ebitda_aud" = VNone
  ∨ (∃ e, get d "ebitda_aud" = VNum e ∧ (e <= 0)%Q) →
  ∃ x, feature d2 "price_to_ebitda" = Some x ∧ (x == 0)%Q.
Proof.
  intros (w & target & hq_lat & hq_lon & maxd & _ & _ & _ & _ & _ & Hd) He.
  apply score_deal_parts in Hd
    as (margin & pte & ff & fc & fd & score & _ & Hpte & _ & _ & _ & _ & ->).
  rewrite (raw_pte_no_earnings d He) in Hpte. injection Hpte as <-.
  eexists. split.
  - unfold feature. rewrite lookup_insert_eq. apply features_lookup_pte.
  - by apply round3_zero.
Qed.

Lemma f_margin_full m : (3 # 10 <= m)%Q → (f_margin m == 1)%Q.
Proof.
  intros H. unfold f_margin. apply Q.min_r.
  apply Qle_trans with (m / (3 # 10))%Q; [|apply Q.le_max_l].
  unfold Qle, Qdiv, Qmult, Qinv in *. simpl in *. lia.
Qed.

Lemma f_margin_none m : (m <= 0)%Q → (f_margin m == 0)%Q.
Proof.
  intros H. unfold f_margin.
  assert (H0 : (Qmax (m / (3 # 10)) 0 == 0)%Q).
  { apply Q.max_r. unfold Qle, Qdiv, Qmult, Qinv in *. simpl in *. lia. }
  rewrite Q.min_l; [done|]. by rewrite H0.
Qed.

Lemma raw_margin_no_revenue d :
  get d "revenue_aud" = VNone
  ∨ (∃ r, get d "revenue_aud" = VNum r ∧ (r <= 0)%Q) →
  raw_margin d = Ok 0%Q.
Proof.
  unfold raw_margin, py_or. intros [->|(r & -> & Hr)]; simpl; [done|].
  destruct (Qeq_bool r 0) eqn:E; simpl; [done|].
  destruct (Qlt_bool 0 r) eqn:El; [|done].
  apply Qlt_bool_iff in El. by apply Qlt_not_le in El.
Qed.

Lemma raw_margin_revenue d r e :
  get d "revenue_aud" = VNum r → get d "ebitda_aud" = VNum e → (0 < r)%Q →
  ∃ m, raw_margin d = Ok m ∧ (m == e / r)%Q.
Proof.
  intros Hr He Hpos. unfold raw_margin. rewrite Hr, He.
  assert (Hne : Qeq_bool r 0 = false).
  { destruct (Qeq_bool r 0) eqn:E; [|done].
    apply Qeq_bool_iff in E. rewrite E in Hpos. by apply Qlt_irrefl in Hpos. }
  unfold py_or. simpl. rewrite Hne. simpl.
  apply Qlt_bool_iff in Hpos. rewrite Hpos.
  destruct (Qeq_bool e 0) eqn:E; simpl; eexists; split; try done.
  apply Qeq_bool_iff in E. by rewrite E.
Qed.

(** X15.  The margin feature at its ends: 0 for a deal without positive
    revenue, whatever its earnings; with positive revenue, 1 as soon as
    earnings reach thirty per cent of revenue, and 0 when there are
    none. *)
Theorem margin_edges cfg d d2 :
  scored_by km today fromisoformat cfg d d2 →
  ∃ x, feature d2 "margin" = Some x
    ∧ (get d "revenue_aud" = VNone
       ∨ (∃ r, get d "revenue_aud" = VNum r ∧ (r <= 0)%Q) → (x == 0)%Q)
    ∧ (∀ r e, get d "revenue_aud" = VNum r → get d "ebitda_aud" = VNum e →
         (0 < r)%Q →
         (((3 # 10) * r <= e)%Q → (x == 1)%Q)
         ∧ ((e <= 0)%Q → (x == 0)%Q)).
Proof.
  intros (w & target & hq_lat & hq_lon & maxd & _ & _ & _ & _ & _ & Hd).
  apply score_deal_parts in Hd
    as (margin & pte & ff & fc & fd & score & Hm & _ & _ & _ & _ & _ & ->).
  eexists. split; [|split].
  - unfold feature. rewrite lookup_insert_eq. apply features_lookup_margin.
  - intros Hr. rewrite (raw_margin_no_revenue d Hr) in Hm.
    injection Hm as <-. by apply round3_zero.
  - intros r e Hr He Hpos.
    destruct (raw_margin_revenue d r e Hr He Hpos) as (m & Hm' & Hme).
    assert (m = margin) as -> by congruence. split.
    + intros H. apply round3_one_eq, f_margin_full. rewrite Hme.
      by apply Qle_shift_div_l.
    + intros H. apply round3_zero, f_margin_none. rewrite Hme.
      apply Qle_shift_div_r; [done|]. by rewrite Qmult_0_l.
Qed.

Lemma get_num d k q : get d k = VNum q → d !! k = Some (VNum q).
Proof. unfold get. destruct (d !! k); simpl; congruence. Qed.

(** X16.  The proximity feature: the neutral 1/2 for a deal that lacks a
    coordinate; for a located deal, 1 at distance zero and 0 from the
    full-points distance on. *)
Theorem proximity_edges cfg hq_lat hq_lon maxd d d2 :
  scored_by km today fromisoformat cfg d d2 →
  cfg_hq_lat cfg = Some hq_lat → cfg_hq_lon cfg = Some hq_lon →
  cfg_max_distance_km_for_full_points cfg = Some maxd →
  ∃ x, feature d2 "proximity" = Some x
    ∧ (located d = false → (x == 1 # 2)%Q)
    ∧ (∀ lat lon dist,
         get d "lat" = VNum lat → get d "lon" = VNum lon →
         km hq_lat hq_lon lat lon = Ok dist →
         ((dist == 0)%Q → (x == 1)%Q)
         ∧ ((0 < maxd)%Q → (maxd <= dist)%Q → (x == 0)%Q)).
Proof.
  intros (w & target & hq_lat' & hq_lon' & maxd' & _ & _ & Hla & Hlo & Hm & Hd)
         Hla' Hlo' Hm'.
  assert (hq_lat' = hq_lat) as -> by congruence.
  assert (hq_lon' = hq_lon) as -> by congruence.
  assert (maxd' = maxd) as -> by congruence.
  apply score_deal_parts in Hd
    as (margin & pte & ff & fc & fd & score & _ & _ & _ & _ & Hfd & _ & ->).
  eexists. split; [|split].
  - unfold feature. rewrite lookup_insert_eq. apply features_lookup_proximity.
  - intros Hloc. unfold f_dist in Hfd. unfold located in Hloc.
    rewrite Hloc in Hfd. injection Hfd as <-. apply round3_half.
  - intros lat lon dist Hlat Hlon Hkm.
    unfold f_dist, getitem in Hfd. rewrite Hlat, Hlon in Hfd.
    rewrite (get_num _ _ _ Hlat), (get_num _ _ _ Hlon) in Hfd.
    simpl in Hfd. rewrite Hkm in Hfd. simpl in Hfd.
    destruct (Qeq_bool maxd 0) eqn:E; [done|]. injection Hfd as <-.
    split.
    + intros H0. apply round3_one_eq.
      assert (Hd : (1 - dist / maxd == 1)%Q).
      { rewrite H0. unfold Qdiv. rewrite Qmult_0_l. reflexivity. }
      rewrite Q.max_r; [done|]. by rewrite Hd.
    + intros Hpos Hfar. apply round3_zero.
      apply Q.max_l.
      assert (H1 : (1 <= dist / maxd)%Q).
      { apply Qle_shift_div_l; [done|]. by rewrite Qmult_1_l. }
      unfold Qle, Qminus, Qplus, Qopp in *. simpl in *. lia.
Qed.

Lemma score_loop_aborts w target hq_lat hq_lon maxd pre d post e :
  Forall (λ p, is_ok (score_deal km today fromisoformat w target
                        hq_lat hq_lon maxd p) = true) pre →
  score_deal km today fromisoformat w target hq_lat hq_lon maxd d = Raise e →
  score_loop km today fromisoformat w target hq_lat hq_lon maxd
    (pre ++ d :: post) = Raise e.
Proof.
  intros Hpre Hd. induction Hpre as [|p pre Hp _ IH]; simpl.
  - by rewrite Hd.
  - destruct (score_deal _ _ _ _ _ _ _ _ p); [|done]. simpl. by rewrite IH.
Qed.

(** X17.  Scoring is all or nothing: the first deal that cannot be scored
    aborts the run with its error, and the deals scored before it are not
    returned. *)
Theorem score_deals_aborts cfg w target hq_lat hq_lon maxd pre d post e :
  cfg_weights cfg = Some w →
  cfg_target_categories cfg = Some target →
  cfg_hq_lat cfg = Some hq_lat → cfg_hq_lon cfg = Some hq_lon →
  cfg_max_distance_km_for_full_points cfg = Some maxd →
  Forall (λ p, is_ok (score_deal km today fromisoformat w target
                        hq_lat hq_lon maxd p) = true) pre →
  score_deal km today fromisoformat w target hq_lat hq_lon maxd d = Raise e →
  score_deals km today fromisoformat (pre ++ d :: post) cfg = Raise e.
Proof.
  intros Hw Ht Hla Hlo Hm Hpre Hd.
  unfold score_deals. rewrite Hw, Ht, Hla, Hlo, Hm. simpl.
  by rewrite (score_loop_aborts _ _ _ _ _ _ _ _ _ Hpre Hd).
Qed.

Lemma score_loop_fails w target hq_lat hq_lon maxd deals d :
  d ∈ deals →
  is_ok (score_deal km today fromisoformat w target hq_lat hq_lon maxd d)
    = false →
  is_ok (score_loop km today fromisoformat w target hq_lat hq_lon maxd deals)
    = false.
Proof.
  induction deals as [|p deals IH]; intros Hin Hd.
  - by apply elem_of_nil in Hin.
  - simpl. apply elem_of_cons in Hin as [<-|Hin].
    + by destruct (score_deal _ _ _ _ _ _ _ _ d).
    + destruct (score_deal _ _ _ _ _ _ _ _ p); [|done]. simpl.
      specialize (IH Hin Hd). by destruct (score_loop _ _ _ _ _ _ _ _ deals).
Qed.

Lemma score_deals_fails deals cfg d :
  d ∈ deals →
  (∀ w target hq_lat hq_lon maxd,
     cfg_max_distance_km_for_full_points cfg = Some maxd →
     is_ok (score_deal km today fromisoformat w target hq_lat hq_lon maxd d)
       = false) →
  is_ok (score_deals km today fromisoformat deals cfg) = false.
Proof.
  intros Hin Hd. unfold score_deals, cfg_getitem.
  destruct (cfg_weights cfg) as [w|]; [|done].
  destruct (cfg_target_categories cfg) as [target|]; [|done].
  destruct (cfg_hq_lat cfg) as [hq_lat|]; [|done].
  destruct (cfg_hq_lon cfg) as [hq_lon|]; [|done].
  destruct (cfg_max_distance_km_for_full_points cfg) as [maxd|]; [|done].
  simpl.
  pose proof (score_loop_fails w target hq_lat hq_lon maxd deals d Hin
                (Hd _ _ _ _ _ eq_refl)) as H.
  by destruct (score_loop _ _ _ _ _ _ _ _ deals).
Qed.

(** X18.  A deal whose [ownership] is set to something that is not a
    string, [None] included, makes the whole scoring fail. *)
Theorem ownership_not_string_fails deals cfg d v :
  d ∈ deals → d !! "ownership" = Some v → (∀ s, v ≠ VStr s) →
  is_ok (score_deals km today fromisoformat deals cfg) = false.
Proof.
  intros Hin Hv Hns. apply (score_deals_fails deals cfg d Hin).
  intros w target hq_lat hq_lon maxd _. unfold score_deal.
  destruct (raw_margin d); [|done]. simpl.
  destruct (raw_pte d); [|done]. simpl.
  unfold f_freehold, get_or. rewrite Hv. simpl.
  destruct v as [|s| |]; try done. by destruct (Hns s).
Qed.

(** X19.  With a full-points distance of zero in the configuration, a
    single deal that has both coordinates makes the whole scoring fail. *)
Theorem zero_distance_fails deals cfg d maxd :
  d ∈ deals → located d = true →
  cfg_max_distance_km_for_full_points cfg = Some maxd → (maxd == 0)%Q →
  is_ok (score_deals km today fromisoformat deals cfg) = false.
Proof.
  intros Hin Hloc Hm H0. apply (score_deals_fails deals cfg d Hin).
  intros w target hq_lat hq_lon maxd' Hm'.
  assert (maxd' = maxd) as -> by congruence.
  unfold score_deal.
  destruct (raw_margin d); [|done]. simpl.
  destruct (raw_pte d); [|done]. simpl.
  destruct (f_freehold d); [|done]. simpl.
  destruct (f_cat d target); [|done]. simpl.
  unfold f_dist. unfold located in Hloc. rewrite Hloc.
  destruct (getitem d "lat" ≫= as_num); [|done]. simpl.
  destruct (getitem d "lon" ≫= as_num); [|done]. simpl.
  destruct (km _ _ _ _); [|done]. simpl.
  apply Qeq_bool_iff in H0. by rewrite H0.
Qed.
End ScoringFurther.

(** ** The normaliser and the run *)

Section NormalizerFurther.

Variable py_hash : pyval → Z.
Variable py_repr : pyval → string.

(** The fields of a normalised hit that the later stages read. *)
Lemma normalize_hit_fields now hit source d :
  normalize_hit py_hash py_repr now hit source = Ok d →
  ∃ snippet title p,
    get_or hit "snippet" (VStr "") = VStr snippet
    ∧ py_strip (get_or hit "title" (VStr "")) = Ok title
    ∧ parse_price (snippet +:+ " " +:+ title) = Ok p
    ∧ is_Some (source !! "name")
    ∧ hashable (get hit "link") = true
    ∧ d !! "url" = Some (get hit "link")
    ∧ d !! "asking_price_aud" = Some p
    ∧ d !! "revenue_aud" = Some VNone
    ∧ d !! "ebitda_aud" = Some VNone
    ∧ d !! "lat" = Some VNone
    ∧ d !! "lon" = Some VNone
    ∧ d !! "ownership" = Some (get_or source "ownership" (VStr "Unknown"))
    ∧ d !! "category" = Some (get_or source "category" (VStr "Unknown"))
    ∧ d !! "date_listed" = Some (VStr now).
Proof.
  unfold normalize_hit. intros H.
  inv_bind H. rename a into title, Ha into Htitle.
  inv_bind H. rename a into text, Ha into Htext.
  inv_bind H. rename a into p, Ha into Hp.
  inv_bind H. rename a into name, Ha into Hname.
  inv_bind H. rename a into h, Ha into Hh.
  inv_bind H. rename a into name', Ha into Hname'.
  injection H as <-.
  unfold py_add_str in Htext.
  destruct (get_or hit "snippet" (VStr "")) as [|snippet| |] eqn:Hs; try done.
  injection Htext as <-.
  unfold hash in Hh. destruct (hashable (get hit "link")) eqn:Hl; [|done].
  exists snippet, title, p.
  split; [done|]. split; [done|]. split; [done|].
  split; [apply getitem_Ok in Hname; eauto|]. split; [done|].
  unfold list_to_map. cbn [foldr fst snd].
  repeat split; by rewrite !lookup_insert_ne, lookup_insert_eq by done.
Qed.

(** X20.  A hit is normalised exactly when its title and snippet are
    strings or absent, the price found in them, if any, is a number, the
    source has a name, and the link is hashable; otherwise
    [normalize_hit] raises. *)
Theorem normalize_hit_ok_iff now hit source :
  is_ok (normalize_hit py_hash py_repr now hit source) = true
  ↔ ∃ title snippet,
      get_or hit "title" (VStr "") = VStr title
      ∧ get_or hit "snippet" (VStr "") = VStr snippet
      ∧ is_ok (parse_price (snippet +:+ " " +:+ strip title)) = true
      ∧ is_Some (source !! "name")
      ∧ hashable (get hit "link") = true.
Proof.
  unfold normalize_hit, py_strip, py_add_str, hash, getitem. split.
  - destruct (get_or hit "title" (VStr "")) as [|title| |]; try done. simpl.
    destruct (get_or hit "snippet" (VStr "")) as [|snippet| |]; try done.
    simpl. destruct (parse_price _) as [p|] eqn:Hp; [|done]. simpl.
    destruct (source !! "name") as [name|]; [|done]. simpl.
    destruct (hashable (get hit "link")) eqn:Hl; [|done]. intros _.
    exists title, snippet. rewrite Hp. eauto.
  - intros (title & snippet & -> & -> & Hp & [name Hn] & Hl). simpl.
    destruct (parse_price _); [|done]. simpl. rewrite Hn. simpl.
    by rewrite Hl.
Qed.

(** X21.  The asking price of a normalised hit is null or a number that is
    not negative. *)
Theorem normalize_hit_price_range now hit source d :
  normalize_hit py_hash py_repr now hit source = Ok d →
  d !! "asking_price_aud" = Some VNone
  ∨ ∃ q, d !! "asking_price_aud" = Some (VNum q) ∧ (0 <= q)%Q.
Proof.
  intros H. apply normalize_hit_fields in H
    as (snippet & title & p & _ & _ & Hp & _ & _ & _ & -> & _).
  unfold parse_price in Hp.
  destruct (search_price _) as [g|]; [|injection Hp as <-; by left].
  destruct (norm_price_cases g) as [Hg|[(q & Hg & Hq)|Hg]];
    rewrite Hg in Hp; [| |done]; injection Hp as <-; eauto.
Qed.

Lemma normalised_url_ok d : normalised py_hash py_repr d → url_ok d.
Proof.
  intros (now & hit & source & H). apply normalize_hit_fields in H
    as (_ & _ & _ & _ & _ & _ & _ & Hl & Hu & _).
  by exists (get hit "link").
Qed.

(** X22.  Normalised hits can always be de-duplicated: every one carries
    its link as a hashable url. *)
Theorem normalised_dedupe_ok deals :
  Forall (normalised py_hash py_repr) deals → is_ok (dedupe deals) = true.
Proof.
  intros H. unfold dedupe.
  destruct (dedupe_loop_total deals []) as [m ->]; [|done].
  eapply Forall_impl; [exact H|]. apply normalised_url_ok.
Qed.

End NormalizerFurther.

Lemma filter_length_perm {A} (f : A → bool) l l' :
  Permutation l l' → length (List.filter f l) = length (List.filter f l').
Proof.
  induction 1 as [|x l l' _ IH|x y l|l l' l'' _ IH1 _ IH2]; simpl.
  - done.
  - destruct (f x); simpl; by rewrite IH.
  - destruct (f x), (f y); done.
  - by rewrite IH1.
Qed.

Lemma filter_length_Forall2 {A} (f : A → bool) l l' :
  Forall2 (λ a b, f b = f a) l l' →
  length (List.filter f l') = length (List.filter f l).
Proof.
  induction 1 as [|a b l l' Hab _ IH]; simpl; [done|].
  rewrite Hab. destruct (f a); simpl; by rewrite IH.
Qed.

Lemma augmented_has_url u d d2 : augmented d d2 → has_url u d2 = has_url u d.
Proof.
  intros (s & f & ->). unfold has_url.
  by rewrite !lookup_insert_ne by done.
Qed.

(** What de-duplication returns: deals of its input, no url twice. *)
Lemma dedupe_facts deals out :
  dedupe deals = Ok out → url_unique out ∧ ∀ d, d ∈ out → d ∈ deals.
Proof.
  unfold dedupe. intros H. inv_bind H. injection H as <-.
  assert (Hinv0 : od_inv []) by (split; [exact I | constructor]).
  destruct (dedupe_loop_spec _ _ _ Ha Hinv0) as (Hinv & Hin & _).
  split; [by apply od_inv_unique|].
  intros d Hd. destruct (Hin d Hd) as [H|H]; [done|]. simpl in H.
  by apply elem_of_nil in H.
Qed.

Section RunProperties.

Variable search_serpapi : string → res (list dict).
Variable load_scoring : config.
Variable py_hash : pyval → Z.
Variable py_repr : pyval → string.
Variable utc_date_at : nat → string.
Variable km : Q → Q → Q → Q → res Q.
Variable today : Z.
Variable fromisoformat : string → option Z.

Lemma hits_loop_normalised s results : ∀ deals out,
  hits_loop py_hash py_repr utc_date_at s results deals = Ok out →
  Forall (normalised py_hash py_repr) deals →
  Forall (normalised py_hash py_repr) out.
Proof.
  induction results as [|hit rest IH]; simpl; intros deals out H Hd.
  - by injection H as <-.
  - inv_bind H. apply (IH _ _ H). apply Forall_app. split; [done|].
    constructor; [|constructor]. unfold normalised. eauto.
Qed.

Lemma queries_loop_normalised s queries : ∀ deals out,
  queries_loop search_serpapi py_hash py_repr utc_date_at s queries deals
    = Ok out →
  Forall (normalised py_hash py_repr) deals →
  Forall (normalised py_hash py_repr) out.
Proof.
  induction queries as [|q rest IH]; simpl; intros deals out H Hd.
  - by injection H as <-.
  - inv_bind H. inv_bind H. apply (IH _ _ H).
    by eapply hits_loop_normalised.
Qed.

Lemma sites_loop_normalised sites : ∀ deals out,
  sites_loop search_serpapi py_hash py_repr utc_date_at sites deals = Ok out →
  Forall (normalised py_hash py_repr) deals →
  Forall (normalised py_hash py_repr) out.
Proof.
  induction sites as [|s rest IH]; simpl; intros deals out H Hd.
  - by injection H as <-.
  - inv_bind H. inv_bind H. apply (IH _ _ H).
    by eapply queries_loop_normalised.
Qed.

(** The three features that rest on data no normalised hit has. *)
Lemma scored_normalised_features cfg d d2 :
  normalised py_hash py_repr d →
  scored_by km today fromisoformat cfg d d2 →
  ∃ m p x,
    feature d2 "margin" = Some m ∧ (m == 0)%Q
    ∧ feature d2 "price_to_ebitda" = Some p ∧ (p == 0)%Q
    ∧ feature d2 "proximity" = Some x ∧ (x == 1 # 2)%Q.
Proof.
  intros (now & hit & source & Hn)
         (w & target & hq_lat & hq_lon & maxd & _ & _ & _ & _ & _ & Hd).
  apply normalize_hit_fields in Hn
    as (_ & _ & _ & _ & _ & _ & _ & _ & _ & _ & Hrev & Heb & Hlat & Hlon & _).
  apply score_deal_parts in Hd
    as (margin & pte & ff & fc & fd & score & Hm & Hp & _ & _ & Hfd & _ & ->).
  assert (Hgr : get d "revenue_aud" = VNone) by (unfold get; by rewrite Hrev).
  assert (Hge : get d "ebitda_aud" = VNone) by (unfold get; by rewrite Heb).
  rewrite (raw_margin_no_revenue d (or_introl Hgr)) in Hm.
  rewrite (raw_pte_no_earnings d (or_introl Hge)) in Hp.
  injection Hm as <-. injection Hp as <-.
  unfold f_dist, get in Hfd. rewrite Hlat in Hfd. simpl in Hfd.
  injection Hfd as <-.
  eexists _, _, _. unfold feature. rewrite lookup_insert_eq.
  rewrite features_lookup_margin, features_lookup_pte,
          features_lookup_proximity.
  split; [done|]. split; [by apply round3_zero|].
  split; [done|]. split; [by apply round3_zero|].
  split; [done|]. apply round3_half.
Qed.

(** What a run hands to the writer. *)
Lemma run_inv sites out :
  run search_serpapi load_scoring py_hash py_repr utc_date_at km today
    fromisoformat sites = Ok out →
  ∃ deals,
    Forall (normalised py_hash py_repr) deals
    ∧ url_unique deals
    ∧ score_deals km today fromisoformat deals load_scoring = Ok out.
Proof.
  unfold run. intros H. inv_bind H. rename a into gathered, Ha into Hg.
  inv_bind H. rename a into deals, Ha into Hd.
  apply sites_loop_normalised in Hg; [|constructor].
  apply dedupe_facts in Hd as [Hu Hin].
  exists deals. split; [|done].
  apply Forall_forall. intros d Hdin.
  rewrite Forall_forall in Hg. by apply Hg, Hin.
Qed.

(** X23.  What a run writes out is ranked by descending score, holds no
    url twice, and consists of normalised hits with their scores. *)
Theorem run_output sites out :
  run search_serpapi load_scoring py_hash py_repr utc_date_at km today
    fromisoformat sites = Ok out →
  StronglySorted by_score_desc out
  ∧ url_unique out
  ∧ Forall (λ d2, ∃ d, normalised py_hash py_repr d
                       ∧ scored_by km today fromisoformat load_scoring d d2)
      out.
Proof.
  intros H. apply run_inv in H as (deals & Hn & Hu & Hs).
  split; [|split].
  - apply score_deals_inv in Hs
      as (w & target & hq_lat & hq_lon & maxd & scored & _ & _ & _ & _ & _
          & _ & ->).
    apply sort_desc_sorted.
  - pose proof Hs as Hs'. apply score_deals_inv in Hs'
      as (w & target & hq_lat & hq_lon & maxd & scored & _ & _ & _ & _ & _
          & Hall & ->).
    intros u. rewrite (filter_length_perm _ _ _ (sort_desc_perm scored)).
    rewrite (filter_length_Forall2 (has_url u) deals scored); [apply Hu|].
    eapply Forall2_impl; [exact Hall|]. intros d d2 Hd.
    simpl in Hd. apply score_deal_augmented in Hd.
    by apply augmented_has_url.
  - apply Forall_forall. intros d2 Hd2.
    destruct (score_deals_elem_out _ _ _ _ _ _ _ Hs Hd2) as (d & Hd & Hsc).
    exists d. split; [|done]. rewrite Forall_forall in Hn. by apply Hn.
Qed.

(** X24.  No deal of a run has financial figures or coordinates, so in
    everything a run writes out the margin and price features are 0 and
    the proximity feature is 1/2: the ranking rests on recency, ownership
    and category alone. *)
Theorem run_blind_features sites out d2 :
  run search_serpapi load_scoring py_hash py_repr utc_date_at km today
    fromisoformat sites = Ok out →
  d2 ∈ out →
  ∃ m p x,
    feature d2 "margin" = Some m ∧ (m == 0)%Q
    ∧ feature d2 "price_to_ebitda" = Some p ∧ (p == 0)%Q
    ∧ feature d2 "proximity" = Some x ∧ (x == 1 # 2)%Q.
Proof.
  intros H Hd2. apply run_inv in H as (deals & Hn & _ & Hs).
  destruct (score_deals_elem_out _ _ _ _ _ _ _ Hs Hd2) as (d & Hd & Hsc).
  apply (scored_normalised_features load_scoring d d2); [|done].
  rewrite Forall_forall in Hn. by apply Hn.
Qed.

End RunProperties.

Lemma weight_key_elem k : In k weight_keys → k ∈ weight_keys.
Proof. apply list_elem_of_In. Qed.

Section ScoreNormalised.

Variable py_hash : pyval → Z.
Variable py_repr : pyval → string.
Variable km : Q → Q → Q → Q → res Q.
Variable today : Z.
Variable fromisoformat : string → option Z.

(** X25.  Scoring a normalised hit cannot fail when the source gives
    strings, or nothing, for ownership and category and the configuration
    has all six weights. *)
Theorem score_normalised_ok now hit source d w target hq_lat hq_lon maxd :
  normalize_hit py_hash py_repr now hit source = Ok d →
  (∃ o, get_or source "ownership" (VStr "Unknown") = VStr o) →
  (∃ c, get_or source "category" (VStr "Unknown") = VStr c) →
  weights_complete w →
  is_ok (score_deal km today fromisoformat w target hq_lat hq_lon maxd d)
    = true.
Proof.
  intros Hn [o Ho] [c Hc] Hw.
  apply normalize_hit_fields in Hn
    as (_ & _ & _ & _ & _ & _ & _ & _ & _ & _ & Hrev & Heb & Hlat & Hlon
        & Hown & Hcat & _).
  assert (Hgr : get d "revenue_aud" = VNone) by (unfold get; by rewrite Hrev).
  assert (Hge : get d "ebitda_aud" = VNone) by (unfold get; by rewrite Heb).
  unfold score_deal.
  rewrite (raw_margin_no_revenue d (or_introl Hgr)).
  rewrite (raw_pte_no_earnings d (or_introl Hge)). simpl.
  unfold f_freehold, get_or. rewrite Hown, Ho. simpl.
  unfold f_cat, get. rewrite Hcat, Hc. simpl.
  unfold f_dist, get. rewrite Hlat. simpl.
  unfold weighted, getitem.
  destruct (Hw "ebitda_margin") as [? ->];
    [apply weight_key_elem; simpl; tauto|].
  destruct (Hw "price_to_ebitda") as [? ->];
    [apply weight_key_elem; simpl; tauto|].
  destruct (Hw "recency") as [? ->];
    [apply weight_key_elem; simpl; tauto|].
  destruct (Hw "ownership_freehold") as [? ->];
    [apply weight_key_elem; simpl; tauto|].
  destruct (Hw "category_match") as [? ->];
    [apply weight_key_elem; simpl; tauto|].
  destruct (Hw "proximity_se_qld") as [? ->];
    [apply weight_key_elem; simpl; tauto|].
  done.
Qed.

End ScoreNormalised.

(** ** Instances of the further properties *)

Lemma first_deal_elem (out : list dict) n :
  length out = S n → first_deal out ∈ out.
Proof. destruct out as [|d out]; [done|]. intros _. by left. Qed.

(** Text without a digit. *)
Lemma norm_price_no_amount_witness :
  all_chars (λ c, negb (is_amount_char c)) "no number here" = true
  ∧ norm_price "no number here" = Ok VNone.
Proof.
  split; [reflexivity|].
  apply (norm_price_no_amount "no number here"). reflexivity.
Defined.


(** A version number is not an amount. *)
Lemma norm_price_raises_iff_witness :
  count_chars is_dot "1.2.3" = 2%nat
  ∧ norm_price ("v" +:+ "1.2.3" +:+ "") = Raise ValueError.
Proof.
  split; [reflexivity|].
  apply (norm_price_raises_iff "v" "1.2.3" "");
    [reflexivity | reflexivity | discriminate | reflexivity |].
  right. vm_compute. lia.
Defined.

Lemma dedupe_ok_iff_witness :
  is_ok (dedupe [deal_bakery; deal_cafe]) = true
  ∧ Forall url_ok [deal_bakery; deal_cafe].
Proof.
  assert (H : is_ok (dedupe [deal_bakery; deal_cafe]) = true)
    by (vm_compute; reflexivity).
  split; [exact H|].
  exact (proj1 (dedupe_ok_iff [deal_bakery; deal_cafe]) H).
Defined.

Lemma dedupe_url_unique_witness :
  ∃ out,
    dedupe [deal_bakery; deal_cafe; deal_bakery_again] = Ok out
    ∧ url_unique out.
Proof.
  destruct (is_ok_Ok (dedupe [deal_bakery; deal_cafe; deal_bakery_again]))
    as [out E]; [vm_compute; reflexivity|].
  exists out. split; [exact E|].
  exact (dedupe_url_unique _ out E).
Defined.

Lemma dedupe_length_witness :
  ∃ out,
    dedupe [deal_bakery; deal_cafe; deal_bakery_again] = Ok out
    ∧ (length out <= length [deal_bakery; deal_cafe; deal_bakery_again])%nat
    ∧ ([deal_bakery; deal_cafe; deal_bakery_again] ≠ [] → out ≠ []).
Proof.
  destruct (is_ok_Ok (dedupe [deal_bakery; deal_cafe; deal_bakery_again]))
    as [out E]; [vm_compute; reflexivity|].
  exists out. split; [exact E|].
  exact (dedupe_length _ out E).
Defined.

Lemma sample_urls_ok : Forall url_ok [deal_bakery; deal_cafe].
Proof.
  repeat constructor.
  - exists (VStr "https://a.example/1"). split; vm_compute; reflexivity.
  - exists (VStr "https://a.example/2"). split; vm_compute; reflexivity.
Qed.

Lemma dedupe_identity_iff_witness :
  Forall url_ok [deal_bakery; deal_cafe]
  ∧ (dedupe [deal_bakery; deal_cafe] = Ok [deal_bakery; deal_cafe]
     ↔ url_unique [deal_bakery; deal_cafe]).
Proof.
  split; [exact sample_urls_ok|].
  exact (dedupe_identity_iff [deal_bakery; deal_cafe] sample_urls_ok).
Defined.

Lemma sample_scored d :
  is_ok (score_deal sample_km 739617 sample_fromisoformat sample_weights
           ["Cafe"] (- (55 # 2))%Q (153 # 1)%Q (200 # 1)%Q d) = true →
  ∃ d2, scored_by sample_km 739617 sample_fromisoformat sample_config d d2.
Proof.
  intros H. apply is_ok_Ok in H as [d2 H]. exists d2.
  by exists sample_weights, ["Cafe"], (- (55 # 2))%Q, (153 # 1)%Q, (200 # 1)%Q.
Qed.

Lemma scored_by_recency km today fromisoformat cfg d d2 :
  scored_by km today fromisoformat cfg d d2 →
  ∃ x, feature d2 "recency" = Some x.
Proof.
  intros (w & target & hq_lat & hq_lon & maxd & _ & _ & _ & _ & _ & Hd).
  apply score_deal_parts in Hd
    as (margin & pte & ff & fc & fd & score & _ & _ & _ & _ & _ & _ & ->).
  eexists. unfold feature. rewrite lookup_insert_eq.
  apply features_lookup_recency.
Qed.

Lemma sample_weights_nonneg k y :
  sample_weights !! k = Some y → (0 <= y)%Q.
Proof.
  unfold sample_weights. intros H. apply elem_of_list_to_map_2 in H.
  repeat (apply elem_of_cons in H as [[= -> ->]|H]; [done|]).
  by apply elem_of_nil in H.
Qed.

Lemma sample_km_nonneg a b c e y : sample_km a b c e = Ok y → (0 <= y)%Q.
Proof.
  unfold sample_km.
  repeat (destruct (_ && _)); intros [= <-]; done.
Qed.

(** The cafe, ranked first, has a recency above 1 and yet no negative
    feature. *)
Lemma features_lower_bounds_witness :
  ∃ out x,
    score_deals sample_km 739617 sample_fromisoformat
      [deal_bakery; deal_cafe] sample_config = Ok out
    ∧ first_deal out ∈ out
    ∧ feature (first_deal out) "recency" = Some x
    ∧ (0 <= x)%Q
    ∧ ("recency" = "margin" ∨ "recency" = "freehold"
       ∨ "recency" = "category" → (x <= 1)%Q).
Proof.
  assert (Hn : count_of (score_deals sample_km 739617 sample_fromisoformat
                           [deal_bakery; deal_cafe] sample_config) = Ok 2%nat)
    by (vm_compute; reflexivity).
  assert (Hf : first_feature (score_deals sample_km 739617
                                sample_fromisoformat [deal_bakery; deal_cafe]
                                sample_config) "recency"
               = Ok (Some (1033 # 1000)%Q))
    by (vm_compute; reflexivity).
  destruct (score_deals sample_km 739617 sample_fromisoformat
              [deal_bakery; deal_cafe] sample_config) as [out|] eqn:E;
    [|discriminate].
  injection Hn as Hn. injection Hf as Hf.
  exists out, (1033 # 1000)%Q.
  split; [reflexivity|]. split; [exact (first_deal_elem out 1 Hn)|].
  split; [exact Hf|].
  exact (features_lower_bounds sample_km 739617 sample_fromisoformat
           [deal_bakery; deal_cafe] sample_config out (first_deal out)
           "recency" (1033 # 1000)%Q E (first_deal_elem out 1 Hn) Hf).
Defined.

(** The bakery, listed today and without a price. *)
Lemma features_within_unit_witness :
  ∃ d2 x,
    scored_by sample_km 739617 sample_fromisoformat sample_config
      deal_bakery d2
    ∧ feature d2 "recency" = Some x
    ∧ (0 <= x <= 1)%Q.
Proof.
  destruct (sample_scored deal_bakery) as [d2 Hd2]; [vm_compute; reflexivity|].
  destruct (scored_by_recency _ _ _ _ _ _ Hd2) as [x Hx].
  exists d2, x. split; [exact Hd2|]. split; [exact Hx|].
  apply (features_within_unit sample_km 739617 sample_fromisoformat
           sample_config deal_bakery d2 (200 # 1)%Q "recency" x Hd2).
  - intros s listed Hs Hl. vm_compute in Hs. injection Hs as <-.
    vm_compute in Hl. injection Hl as <-. lia.
  - intros q Hq. vm_compute in Hq. discriminate.
  - reflexivity.
  - reflexivity.
  - exact sample_km_nonneg.
  - exact Hx.
Defined.

Lemma score_nonneg_witness :
  ∃ out s,
    score_deals sample_km 739617 sample_fromisoformat
      [deal_bakery; deal_cafe] sample_config = Ok out
    ∧ first_deal out !! "score" = Some (VNum s) ∧ (0 <= s)%Q.
Proof.
  assert (Hn : count_of (score_deals sample_km 739617 sample_fromisoformat
                           [deal_bakery; deal_cafe] sample_config) = Ok 2%nat)
    by (vm_compute; reflexivity).
  destruct (score_deals sample_km 739617 sample_fromisoformat
              [deal_bakery; deal_cafe] sample_config) as [out|] eqn:E;
    [|discriminate].
  injection Hn as Hn.
  destruct (score_nonneg sample_km 739617 sample_fromisoformat
              [deal_bakery; deal_cafe] sample_config out sample_weights
              (first_deal out) E eq_refl sample_weights_nonneg
              (first_deal_elem out 1 Hn)) as (s & Hs & Hpos).
  exists out, s. split; [reflexivity|]. split; [exact Hs | exact Hpos].
Defined.

Lemma recency_edges_witness :
  ∃ d2 x,
    scored_by sample_km 739617 sample_fromisoformat sample_config
      deal_bakery d2
    ∧ feature d2 "recency" = Some x ∧ (x == 1)%Q.
Proof.
  destruct (sample_scored deal_bakery) as [d2 Hd2]; [vm_compute; reflexivity|].
  destruct (recency_edges sample_km 739617 sample_fromisoformat sample_config
              deal_bakery d2 Hd2) as (x & Hx & _ & Hl).
  exists d2, x. split; [exact Hd2|]. split; [exact Hx|].
  apply (Hl "2026-01-01" 739617); reflexivity.
Defined.

Lemma no_earnings_no_price_credit_witness :
  get deal_bakery "ebitda_aud" = VNone
  ∧ ∃ d2 x,
      scored_by sample_km 739617 sample_fromisoformat sample_config
        deal_bakery d2
      ∧ feature d2 "price_to_ebitda" = Some x ∧ (x == 0)%Q.
Proof.
  assert (He : get deal_bakery "ebitda_aud" = VNone) by reflexivity.
  split; [exact He|].
  destruct (sample_scored deal_bakery) as [d2 Hd2]; [vm_compute; reflexivity|].
  destruct (no_earnings_no_price_credit sample_km 739617 sample_fromisoformat
              sample_config deal_bakery d2 Hd2 (or_introl He))
    as (x & Hx & H0).
  exists d2, x. split; [exact Hd2|]. split; [exact Hx | exact H0].
Defined.

(** The cafe earns 24 per cent of its revenue; the bakery records no
    revenue. *)
Lemma margin_edges_witness :
  ∃ d2 x,
    scored_by sample_km 739617 sample_fromisoformat sample_config
      deal_bakery d2
    ∧ feature d2 "margin" = Some x ∧ (x == 0)%Q.
Proof.
  destruct (sample_scored deal_bakery) as [d2 Hd2]; [vm_compute; reflexivity|].
  destruct (margin_edges sample_km 739617 sample_fromisoformat sample_config
              deal_bakery d2 Hd2) as (x & Hx & H0 & _).
  exists d2, x. split; [exact Hd2|]. split; [exact Hx|].
  apply H0. left. reflexivity.
Defined.

(** The bakery without coordinates, at the headquarters, and in Sydney,
    729 km from them, with full points up to 200 km. *)
Lemma proximity_edges_witness :
  (∃ d2 x,
     scored_by sample_km 739617 sample_fromisoformat sample_config
       deal_bakery d2
     ∧ feature d2 "proximity" = Some x ∧ (x == 1 # 2)%Q)
  ∧ (∃ d2 x,
       scored_by sample_km 739617 sample_fromisoformat sample_config
         deal_at_hq d2
       ∧ feature d2 "proximity" = Some x ∧ (x == 1)%Q)
  ∧ (∃ d2 x,
       scored_by sample_km 739617 sample_fromisoformat sample_config
         deal_sydney d2
       ∧ feature d2 "proximity" = Some x ∧ (x == 0)%Q).
Proof.
  split; [|split].
  - destruct (sample_scored deal_bakery) as [d2 Hd2];
      [vm_compute; reflexivity|].
    destruct (proximity_edges sample_km 739617 sample_fromisoformat
                sample_config (- (55 # 2))%Q (153 # 1)%Q (200 # 1)%Q
                deal_bakery d2 Hd2 eq_refl eq_refl eq_refl)
      as (x & Hx & Hnone & _).
    exists d2, x. split; [exact Hd2|]. split; [exact Hx|].
    apply Hnone. vm_compute. reflexivity.
  - destruct (sample_scored deal_at_hq) as [d2 Hd2];
      [vm_compute; reflexivity|].
    destruct (proximity_edges sample_km 739617 sample_fromisoformat
                sample_config (- (55 # 2))%Q (153 # 1)%Q (200 # 1)%Q
                deal_at_hq d2 Hd2 eq_refl eq_refl eq_refl)
      as (x & Hx & _ & Hl).
    exists d2, x. split; [exact Hd2|]. split; [exact Hx|].
    apply (Hl (- (55 # 2))%Q (153 # 1)%Q 0%Q);
      [reflexivity | reflexivity | reflexivity | reflexivity].
  - destruct (sample_scored deal_sydney) as [d2 Hd2];
      [vm_compute; reflexivity|].
    destruct (proximity_edges sample_km 739617 sample_fromisoformat
                sample_config (- (55 # 2))%Q (153 # 1)%Q (200 # 1)%Q
                deal_sydney d2 Hd2 eq_refl eq_refl eq_refl)
      as (x & Hx & _ & Hl).
    exists d2, x. split; [exact Hd2|]. split; [exact Hx|].
    apply (Hl (- (3387 # 100))%Q (15121 # 100)%Q (728658 # 1000)%Q);
      [reflexivity | reflexivity | reflexivity | reflexivity
      | unfold Qle; simpl; lia].
Defined.

Lemma score_deals_aborts_witness :
  score_deal sample_km 739617 sample_fromisoformat sample_weights ["Cafe"]
    (- (55 # 2))%Q (153 # 1)%Q (200 # 1)%Q deal_no_ownership
    = Raise AttributeError
  ∧ score_deals sample_km 739617 sample_fromisoformat
      ([deal_cafe] ++ deal_no_ownership :: [deal_bakery]) sample_config
    = Raise AttributeError.
Proof.
  assert (Hd : score_deal sample_km 739617 sample_fromisoformat sample_weights
                 ["Cafe"] (- (55 # 2))%Q (153 # 1)%Q (200 # 1)%Q
                 deal_no_ownership = Raise AttributeError)
    by (vm_compute; reflexivity).
  split; [exact Hd|].
  apply (score_deals_aborts sample_km 739617 sample_fromisoformat
           sample_config sample_weights ["Cafe"] (- (55 # 2))%Q (153 # 1)%Q
           (200 # 1)%Q [deal_cafe] deal_no_ownership [deal_bakery]
           AttributeError eq_refl eq_refl eq_refl eq_refl eq_refl);
    [|exact Hd].
  constructor; [vm_compute; reflexivity | constructor].
Defined.

Lemma ownership_not_string_fails_witness :
  deal_no_ownership !! "ownership" = Some VNone
  ∧ is_ok (score_deals sample_km 739617 sample_fromisoformat
             [deal_cafe; deal_no_ownership] sample_config) = false.
Proof.
  assert (Hv : deal_no_ownership !! "ownership" = Some VNone)
    by (vm_compute; reflexivity).
  split; [exact Hv|].
  apply (ownership_not_string_fails sample_km 739617 sample_fromisoformat
           [deal_cafe; deal_no_ownership] sample_config deal_no_ownership
           VNone); [|exact Hv | discriminate].
  apply list_elem_of_In. right. left. reflexivity.
Defined.

Lemma zero_distance_fails_witness :
  located deal_located = true
  ∧ is_ok (score_deals sample_km 739617 sample_fromisoformat
             [deal_cafe; deal_located] config_zero_distance) = false.
Proof.
  assert (Hl : located deal_located = true) by (vm_compute; reflexivity).
  split; [exact Hl|].
  apply (zero_distance_fails sample_km 739617 sample_fromisoformat
           [deal_cafe; deal_located] config_zero_distance deal_located 0%Q);
    [|exact Hl | reflexivity | reflexivity].
  apply list_elem_of_In. right. left. reflexivity.
Defined.

Lemma normalize_hit_ok_iff_witness :
  get_or hit_marked "title" (VStr "") = VStr "Cafe"
  ∧ get_or hit_marked "snippet" (VStr "") = VStr "Asking AUD$1.2M ono"
  ∧ is_ok (normalize_hit (sample_hash 1) sample_repr "2026-01-01" hit_marked
             sample_source) = true.
Proof.
  assert (Ht : get_or hit_marked "title" (VStr "") = VStr "Cafe")
    by (vm_compute; reflexivity).
  assert (Hs : get_or hit_marked "snippet" (VStr "")
               = VStr "Asking AUD$1.2M ono")
    by (vm_compute; reflexivity).
  split; [exact Ht|]. split; [exact Hs|].
  apply (proj2 (normalize_hit_ok_iff (sample_hash 1) sample_repr "2026-01-01"
                  hit_marked sample_source)).
  exists "Cafe", "Asking AUD$1.2M ono".
  split; [exact Ht|]. split; [exact Hs|].
  split; [vm_compute; reflexivity|].
  split; [exists (VStr "bsale"); vm_compute; reflexivity|].
  vm_compute; reflexivity.
Defined.

Lemma normalize_hit_price_range_witness :
  ∃ d,
    normalize_hit (sample_hash 1) sample_repr "2026-01-01" hit_marked
      sample_source = Ok d
    ∧ (d !! "asking_price_aud" = Some VNone
       ∨ ∃ q, d !! "asking_price_aud" = Some (VNum q) ∧ (0 <= q)%Q).
Proof.
  destruct (is_ok_Ok (normalize_hit (sample_hash 1) sample_repr "2026-01-01"
                        hit_marked sample_source))
    as [d E]; [vm_compute; reflexivity|].
  exists d. split; [exact E|].
  exact (normalize_hit_price_range (sample_hash 1) sample_repr "2026-01-01"
           hit_marked sample_source d E).
Defined.

Lemma normalised_dedupe_ok_witness :
  ∃ d1 d2,
    normalize_hit (sample_hash 1) sample_repr "2026-01-01" hit_marked
      sample_source = Ok d1
    ∧ normalize_hit (sample_hash 1) sample_repr "2026-01-02" hit_bare_k
        sample_source = Ok d2
    ∧ is_ok (dedupe [d1; d2]) = true.
Proof.
  destruct (is_ok_Ok (normalize_hit (sample_hash 1) sample_repr "2026-01-01"
                        hit_marked sample_source))
    as [d1 E1]; [vm_compute; reflexivity|].
  destruct (is_ok_Ok (normalize_hit (sample_hash 1) sample_repr "2026-01-02"
                        hit_bare_k sample_source))
    as [d2 E2]; [vm_compute; reflexivity|].
  exists d1, d2. split; [exact E1|]. split; [exact E2|].
  apply (normalised_dedupe_ok (sample_hash 1) sample_repr [d1; d2]).
  constructor; [|constructor; [|constructor]].
  - exact (ex_intro _ "2026-01-01"
             (ex_intro _ hit_marked (ex_intro _ sample_source E1))).
  - exact (ex_intro _ "2026-01-02"
             (ex_intro _ hit_bare_k (ex_intro _ sample_source E2))).
Defined.

(** A run over the sample site: three hits, two links. *)
Lemma run_output_witness :
  ∃ out,
    run sample_search sample_config (sample_hash 1) sample_repr sample_clock
      sample_km 739617 sample_fromisoformat sample_sites = Ok out
    ∧ StronglySorted by_score_desc out
    ∧ url_unique out
    ∧ Forall (λ d2, ∃ d, normalised (sample_hash 1) sample_repr d
                         ∧ scored_by sample_km 739617 sample_fromisoformat
                             sample_config d d2)
        out.
Proof.
  destruct (is_ok_Ok (run sample_search sample_config (sample_hash 1)
                        sample_repr sample_clock sample_km 739617
                        sample_fromisoformat sample_sites))
    as [out E]; [vm_compute; reflexivity|].
  exists out. split; [exact E|].
  exact (run_output sample_search sample_config (sample_hash 1) sample_repr
           sample_clock sample_km 739617 sample_fromisoformat sample_sites
           out E).
Defined.

Lemma run_blind_features_witness :
  ∃ out,
    run sample_search sample_config (sample_hash 1) sample_repr sample_clock
      sample_km 739617 sample_fromisoformat sample_sites = Ok out
    ∧ first_deal out ∈ out
    ∧ ∃ m p x,
        feature (first_deal out) "margin" = Some m ∧ (m == 0)%Q
        ∧ feature (first_deal out) "price_to_ebitda" = Some p ∧ (p == 0)%Q
        ∧ feature (first_deal out) "proximity" = Some x ∧ (x == 1 # 2)%Q.
Proof.
  assert (Hn : count_of (run sample_search sample_config (sample_hash 1)
                           sample_repr sample_clock sample_km 739617
                           sample_fromisoformat sample_sites) = Ok 2%nat)
    by (vm_compute; reflexivity).
  destruct (run sample_search sample_config (sample_hash 1) sample_repr
              sample_clock sample_km 739617 sample_fromisoformat
              sample_sites) as [out|] eqn:E; [|discriminate].
  injection Hn as Hn.
  exists out. split; [reflexivity|].
  split; [exact (first_deal_elem out 1 Hn)|].
  exact (run_blind_features sample_search sample_config (sample_hash 1)
           sample_repr sample_clock sample_km 739617 sample_fromisoformat
           sample_sites out (first_deal out) E (first_deal_elem out 1 Hn)).
Defined.

Lemma sample_weights_complete : weights_complete sample_weights.
Proof.
  intros k Hk. unfold weight_keys in Hk.
  repeat (apply elem_of_cons in Hk as [->|Hk];
          [eexists; vm_compute; reflexivity|]).
  by apply elem_of_nil in Hk.
Qed.

Lemma score_normalised_ok_witness :
  ∃ d,
    normalize_hit (sample_hash 1) sample_repr "2026-01-01" hit_marked
      sample_source = Ok d
    ∧ is_ok (score_deal sample_km 739617 sample_fromisoformat sample_weights
               ["Cafe"] (- (55 # 2))%Q (153 # 1)%Q (200 # 1)%Q d) = true.
Proof.
  destruct (is_ok_Ok (normalize_hit (sample_hash 1) sample_repr "2026-01-01"
                        hit_marked sample_source))
    as [d E]; [vm_compute; reflexivity|].
  exists d. split; [exact E|].
  apply (score_normalised_ok (sample_hash 1) sample_repr sample_km 739617
           sample_fromisoformat "2026-01-01" hit_marked sample_source d
           sample_weights ["Cafe"] (- (55 # 2))%Q (153 # 1)%Q (200 # 1)%Q E).
  - exists "Unknown". vm_compute; reflexivity.
  - exists "Cafe". vm_compute; reflexivity.
  - exact sample_weights_complete.
Defined.
